(** * SmartCompta: invoice numbering, amounts, extraction and the generate route

    A shallow embedding of [src/lib/facture-utils.ts], [src/lib/openrouter.ts]
    and [src/app/api/generate/route.ts].

    - JavaScript numbers are IEEE-754 binary64 values: Rocq's primitive
      [float], whose operations are the hardware ones, so that every
      evaluation below is bit-exact.
    - Database rows, provider replies and the journal of effects live in an
      explicit [World] threaded through a small state-and-exception monad. *)

From Stdlib Require Import Bool ZArith List String Ascii Lia DecimalString DecimalPos Sorted Uint63.
From Stdlib Require Import Floats.PrimFloat Floats.SpecFloat Floats.FloatOps Floats.FloatAxioms.
Import ListNotations.

Set Warnings "-inexact-float,-register-all".

Open Scope Z_scope.
Open Scope bool_scope.

(** ** JavaScript numbers *)

Module JSNumber.

Definition number := float.
Bind Scope float_scope with number.

(** The binary64 value nearest to an integer (ties to even), as the
    runtime converts an integral mathematical value to a Number. Integers
    of magnitude below 2^62 go through the hardware conversion, which is
    that same rounding. *)
Definition of_Z (z : Z) : number :=
  if Z.abs z <? 4611686018427387904 then
    if z <? 0 then (- PrimFloat.of_uint63 (Uint63.of_Z (- z)))%float
    else PrimFloat.of_uint63 (Uint63.of_Z z)
  else SF2Prim (binary_normalize prec emax z 0 (z <? 0)).

(** [Math.round]: the integral Number closest to [x], ties going toward
    +infinity; NaN and the infinities are returned unchanged, and a result
    of zero keeps the sign of a negative argument. For a finite
    [x = v * 2^e] the result is [floor (x + 1/2)], computed exactly. *)
Definition Math_round (x : number) : number :=
  match Prim2SF x with
  | S754_finite s m e =>
      let v := if s then Z.neg m else Z.pos m in
      let n := if 0 <=? e then v * 2 ^ e
               else Z.shiftr (2 * v + 2 ^ (- e)) (1 - e) in
      if (n =? 0) && s then PrimFloat.neg_zero else of_Z n
  | _ => x
  end.

(** The Number denoted by the decimal literal [m * 10^e] with [m >= 0]
    (negated when [neg]): the exact value rounded to nearest, ties to even.
    Literals far outside the binary64 range are cut short before any large
    power of ten is built. *)
Definition of_decimal (neg : bool) (m e : Z) : number :=
  match m with
  | Zpos p =>
      if 0 <=? e then
        if 310 <? e then (if neg then PrimFloat.neg_infinity else PrimFloat.infinity)
        else SF2Prim (binary_normalize prec emax
                        (if neg then - (m * 10 ^ e) else m * 10 ^ e) 0 neg)
      else if (Z.log2 m + 1) / 3 + 1 + e <? -400 then
        (if neg then PrimFloat.neg_zero else PrimFloat.zero)
      else SF2Prim (SFdiv prec emax (S754_finite neg p 0)
                                    (S754_finite false (Z.to_pos (10 ^ (- e))) 0))
  | _ => if neg then PrimFloat.neg_zero else PrimFloat.zero
  end.

(** [x || 0]-style tests: a Number is falsy when it is a zero or NaN. *)
Definition number_truthy (x : number) : bool :=
  match Prim2SF x with
  | S754_zero _ | S754_nan => false
  | _ => true
  end.

(** *** Number::toString (radix 10)

    For a finite non-zero [x] the runtime picks integers [n], [k], [s] with
    [k] as small as possible such that [s * 10^(n-k)] reads back as [x],
    taking the [s] closest to [x] (the even one on a tie), and lays the
    digits out by the size of [n]. *)

(** [v * 10^p] for the fraction [v = num / den]. *)
Definition scaled (num den p : Z) : Z * Z :=
  if 0 <=? p then (num * 10 ^ p, den) else (num, den * 10 ^ (- p)).

Definition lt_pow10 (num den n : Z) : bool :=
  let '(a, b) := scaled num den (- n) in a <? b.

Fixpoint adjust_up (fuel : nat) (num den n : Z) : Z :=
  match fuel with
  | O => n
  | S f => if lt_pow10 num den n then n else adjust_up f num den (n + 1)
  end.

Fixpoint adjust_down (fuel : nat) (num den n : Z) : Z :=
  match fuel with
  | O => n
  | S f => if lt_pow10 num den (n - 1) then adjust_down f num den (n - 1) else n
  end.

(** The [n] with [10^(n-1) <= num/den < 10^n]. *)
Definition decimal_exponent (num den : Z) : Z :=
  let est := (Z.log2 num - Z.log2 den) * 30103 / 100000 in
  adjust_down 6 num den (adjust_up 6 num den est).

Fixpoint shortest (fuel : nat) (k : Z) (x : number) (num den n : Z) : Z * Z * Z :=
  let '(a, b) := scaled num den (k - n) in
  let lo := a / b in
  let r := a mod b in
  let ok_lo := PrimFloat.Leibniz.eqb (of_decimal false lo (n - k)) x in
  let ok_hi := PrimFloat.Leibniz.eqb (of_decimal false (lo + 1) (n - k)) x in
  let nearer_hi :=
    match 2 * r ?= b with Lt => false | Gt => true | Eq => Z.odd lo end in
  let choice :=
    if ok_lo && ok_hi then Some (if nearer_hi then lo + 1 else lo)
    else if ok_lo then Some lo
    else if ok_hi then Some (lo + 1)
    else None in
  match choice, fuel with
  | Some s, _ => if s =? 10 ^ k then (10 ^ (k - 1), k, n + 1) else (s, k, n)
  | None, S f => shortest f (k + 1) x num den n
  | None, O => (lo, k, n)
  end.

Definition digits_of_Z (z : Z) : string :=
  DecimalString.NilZero.string_of_uint (N.to_uint (Z.to_N z)).

Fixpoint zeros (n : nat) : string :=
  match n with O => EmptyString | S n' => String "0" (zeros n') end.

Definition layout (ds : string) (k n : Z) : string :=
  if (k <=? n) && (n <=? 21) then (ds ++ zeros (Z.to_nat (n - k)))%string
  else if (0 <? n) && (n <=? 21) then
    (substring 0 (Z.to_nat n) ds ++ "." ++
     substring (Z.to_nat n) (Z.to_nat (k - n)) ds)%string
  else if (-6 <? n) && (n <=? 0) then ("0." ++ zeros (Z.to_nat (- n)) ++ ds)%string
  else
    let ex := n - 1 in
    let sign := if 0 <=? ex then "+"%string else "-"%string in
    let exs := (sign ++ digits_of_Z (Z.abs ex))%string in
    if k =? 1 then (ds ++ "e" ++ exs)%string
    else (substring 0 1 ds ++ "." ++ substring 1 (Z.to_nat (k - 1)) ds ++ "e" ++ exs)%string.

Definition NumberToString (x : number) : string :=
  match Prim2SF x with
  | S754_nan => "NaN"%string
  | S754_zero _ => "0"%string
  | S754_infinity s => if s then "-Infinity"%string else "Infinity"%string
  | S754_finite sg m e =>
      let '(num, den) :=
        if 0 <=? e then (Zpos m * 2 ^ e, 1) else (Zpos m, 2 ^ (- e)) in
      let '(s, k, n) :=
        shortest 17 1 (PrimFloat.abs x) num den (decimal_exponent num den) in
      ((if sg then "-" else "") ++ layout (digits_of_Z s) k n)%string
  end.

End JSNumber.
Import JSNumber.

(** ** JavaScript strings

    Strings are sequences of 8-bit characters; case mapping and white space
    are those of the ASCII range, which is the repertoire of the case
    references and of every literal the code compares against. *)

Module JSString.

Definition dquote : ascii := ascii_of_nat 34.

Definition is_lower (a : ascii) : bool :=
  let n := nat_of_ascii a in (97 <=? n)%nat && (n <=? 122)%nat.

Definition upper_ascii (a : ascii) : ascii :=
  if is_lower a then ascii_of_nat (nat_of_ascii a - 32) else a.

(** [String.prototype.toUpperCase]. *)
Fixpoint toUpperCase (s : string) : string :=
  match s with
  | EmptyString => EmptyString
  | String a r => String (upper_ascii a) (toUpperCase r)
  end.

(** WhiteSpace and LineTerminator code points: TAB, LF, VT, FF, CR, SP. *)
Definition is_space (a : ascii) : bool :=
  let n := nat_of_ascii a in
  ((9 <=? n)%nat && (n <=? 13)%nat) || (n =? 32)%nat.

Fixpoint trimStart (s : string) : string :=
  match s with
  | EmptyString => EmptyString
  | String a r => if is_space a then trimStart r else s
  end.

Fixpoint trimEnd (s : string) : string :=
  match s with
  | EmptyString => EmptyString
  | String a r =>
      match trimEnd r with
      | EmptyString => if is_space a then EmptyString else String a EmptyString
      | r' => String a r'
      end
  end.

(** [String.prototype.trim]. *)
Definition trim (s : string) : string := trimEnd (trimStart s).

(** [String.prototype.includes]. *)
Fixpoint includes (s sub : string) : bool :=
  prefix sub s ||
  match s with
  | EmptyString => false
  | String _ r => includes r sub
  end.

(** [String.prototype.padStart(n, c)] for a one-character filler. *)
Definition padStart (s : string) (n : nat) (c : ascii) : string :=
  (fix pad (k : nat) : string :=
     match k with O => s | S k' => String c (pad k') end) (n - String.length s)%nat.

(** Decimal rendering of an integral Number held as an integer (template
    literals and [toString] on the year and on the sequence number). *)
Definition Z_to_string (z : Z) : string :=
  DecimalString.NilZero.string_of_int (Z.to_int z).

(** Test and example texts are written with an apostrophe wherever the
    JSON text has a double quote. *)
Fixpoint json_text (s : string) : string :=
  match s with
  | EmptyString => EmptyString
  | String a r => String (if Ascii.eqb a "'" then dquote else a) (json_text r)
  end.

End JSString.
Import JSString.

(** ** JavaScript values, conversions and [JSON.parse] *)

Module JSValue.

Inductive JsVal :=
| JUndefined
| JNull
| JBool (b : bool)
| JNum (n : number)
| JStr (s : string)
| JArr (items : list JsVal)
| JObj (fields : list (string * JsVal)).

(** What the runtime throws; only the class and a rendering of the message
    are kept (the wording of a message is the engine's). *)
Inductive JsError :=
| TypeError (what : string)
| SyntaxError (what : string)
| FetchError (what : string).

Definition message (e : JsError) : string :=
  match e with TypeError m | SyntaxError m | FetchError m => m end.

Inductive Outcome (A : Type) :=
| Ok (a : A)
| Throw (e : JsError).
Arguments Ok {A} a.
Arguments Throw {A} e.

(** ToBoolean. *)
Definition truthy (v : JsVal) : bool :=
  match v with
  | JUndefined | JNull => false
  | JBool b => b
  | JNum n => number_truthy n
  | JStr s => negb (String.eqb s EmptyString)
  | JArr _ | JObj _ => true
  end.

(** The own property [k] of an object built by [JSON.parse]: the last
    member with that name wins. *)
Fixpoint own (fields : list (string * JsVal)) (k : string) : option JsVal :=
  match fields with
  | [] => None
  | (k', v) :: r =>
      match own r k with
      | Some w => Some w
      | None => if String.eqb k' k then Some v else None
      end
  end.

(** [v.k] for a name [k] that no prototype defines: a TypeError on
    undefined and null, the own member of an object, undefined elsewhere. *)
Definition prop (v : JsVal) (k : string) : Outcome JsVal :=
  match v with
  | JUndefined | JNull =>
      Throw (TypeError ("Cannot read properties of undefined (reading '" ++ k ++ "')"))
  | JObj fields => Ok (match own fields k with Some w => w | None => JUndefined end)
  | _ => Ok JUndefined
  end.

(** [v?.k]: undefined on undefined and null. *)
Definition prop_opt (v : JsVal) (k : string) : JsVal :=
  match v with
  | JObj fields => match own fields k with Some w => w | None => JUndefined end
  | _ => JUndefined
  end.

(** [v?.[0]]: the first element of an array, the first character of a
    string, the member named 0 of an object. *)
Definition index0_opt (v : JsVal) : JsVal :=
  match v with
  | JArr (x :: _) => x
  | JStr (String a _) => JStr (String a EmptyString)
  | JObj fields => match own fields "0" with Some w => w | None => JUndefined end
  | _ => JUndefined
  end.

(** *** StringToNumber *)

Definition is_digit (a : ascii) : bool :=
  let n := nat_of_ascii a in (48 <=? n)%nat && (n <=? 57)%nat.

Definition digit_val (a : ascii) : Z := Z.of_nat (nat_of_ascii a) - 48.

(** Reads leading decimal digits onto [acc]; [cnt] counts them. *)
Fixpoint read_digits (s : string) (acc cnt : Z) : Z * Z * string :=
  match s with
  | String a r =>
      if is_digit a then read_digits r (10 * acc + digit_val a) (cnt + 1)
      else (acc, cnt, s)
  | EmptyString => (acc, cnt, s)
  end.

(** An optional exponent part; [None] when the marker has no digits. *)
Definition read_exponent (s : string) : option (Z * string) :=
  match s with
  | String c r =>
      if Ascii.eqb c "e" || Ascii.eqb c "E" then
        let '(neg, r1) :=
          match r with
          | String "-" r' => (true, r')
          | String "+" r' => (false, r')
          | _ => (false, r)
          end in
        let '(v, cnt, r2) := read_digits r1 0 0 in
        if cnt =? 0 then None else Some (if neg then - v else v, r2)
      else Some (0, s)
  | EmptyString => Some (0, s)
  end.

(** StrUnsignedDecimalLiteral without Infinity: digits, an optional
    fraction, an optional exponent, with a digit on one side of the point. *)
Definition read_decimal (neg : bool) (s : string) : option (number * string) :=
  let '(ip, ic, r1) := read_digits s 0 0 in
  let '(m, fc, r2) :=
    match r1 with
    | String "." r' => read_digits r' ip 0
    | _ => (ip, 0, r1)
    end in
  if (ic =? 0) && (fc =? 0) then None
  else match read_exponent r2 with
       | Some (ex, r3) => Some (of_decimal neg m (ex - fc), r3)
       | None => None
       end.

Definition radix_digit (base : Z) (a : ascii) : option Z :=
  let n := Z.of_nat (nat_of_ascii a) in
  let d := if (48 <=? n) && (n <=? 57) then n - 48
           else if (97 <=? n) && (n <=? 102) then n - 87
           else if (65 <=? n) && (n <=? 70) then n - 55
           else 99 in
  if d <? base then Some d else None.

Fixpoint read_radix (base : Z) (s : string) (acc : Z) : option Z :=
  match s with
  | EmptyString => Some acc
  | String a r =>
      match radix_digit base a with
      | Some d => read_radix base r (base * acc + d)
      | None => None
      end
  end.

Definition radix_prefix (s : string) : option (Z * string) :=
  match s with
  | String "0" (String c r) =>
      if Ascii.eqb c "x" || Ascii.eqb c "X" then Some (16, r)
      else if Ascii.eqb c "o" || Ascii.eqb c "O" then Some (8, r)
      else if Ascii.eqb c "b" || Ascii.eqb c "B" then Some (2, r)
      else None
  | _ => None
  end.

(** [Number(s)] on a string: white space is trimmed, the empty string is 0,
    anything that is not a numeric literal is NaN. *)
Definition StringToNumber (s : string) : number :=
  let t := trim s in
  match t with
  | EmptyString => PrimFloat.zero
  | _ =>
      match radix_prefix t with
      | Some (base, String a r) =>
          match read_radix base (String a r) 0 with
          | Some z => of_Z z
          | None => PrimFloat.nan
          end
      | Some (_, EmptyString) => PrimFloat.nan
      | None =>
          let '(neg, r) :=
            match t with
            | String "-" r' => (true, r')
            | String "+" r' => (false, r')
            | _ => (false, t)
            end in
          if String.eqb r "Infinity" then
            (if neg then PrimFloat.neg_infinity else PrimFloat.infinity)
          else match read_decimal neg r with
               | Some (x, EmptyString) => x
               | _ => PrimFloat.nan
               end
      end
  end.

(** *** ToString and ToNumber *)

Definition cannot_convert : JsError :=
  TypeError "Cannot convert object to primitive value".

(** [String(v)]. An array joins its elements with commas (undefined and
    null elements as empty strings). An object built by [JSON.parse] has no
    callable member, so one that shadows [toString] cannot be converted;
    the others print as [[object Object]]. *)
Fixpoint ToString (v : JsVal) : Outcome string :=
  match v with
  | JUndefined => Ok "undefined"%string
  | JNull => Ok "null"%string
  | JBool b => Ok (if b then "true" else "false")%string
  | JNum n => Ok (NumberToString n)
  | JStr s => Ok s
  | JArr items =>
      (fix join (l : list JsVal) : Outcome string :=
         match l with
         | [] => Ok EmptyString
         | x :: r =>
             match (match x with
                    | JUndefined | JNull => Ok EmptyString
                    | _ => ToString x
                    end) with
             | Throw e => Throw e
             | Ok a =>
                 match r with
                 | [] => Ok a
                 | _ => match join r with
                        | Ok b => Ok (a ++ "," ++ b)%string
                        | Throw e => Throw e
                        end
                 end
             end
         end) items
  | JObj fields =>
      match own fields "toString" with
      | Some _ => Throw cannot_convert
      | None => Ok "[object Object]"%string
      end
  end.

(** [Number(v)]. *)
Definition ToNumber (v : JsVal) : Outcome number :=
  match v with
  | JUndefined => Ok PrimFloat.nan
  | JNull => Ok PrimFloat.zero
  | JBool b => Ok (if b then PrimFloat.one else PrimFloat.zero)
  | JNum n => Ok n
  | JStr s => Ok (StringToNumber s)
  | JArr _ | JObj _ =>
      match ToString v with
      | Ok s => Ok (StringToNumber s)
      | Throw e => Throw e
      end
  end.

(** *** [JSON.parse] *)

Definition is_json_ws (a : ascii) : bool :=
  let n := nat_of_ascii a in
  (n =? 32)%nat || (n =? 9)%nat || (n =? 10)%nat || (n =? 13)%nat.

Fixpoint skip_ws (s : string) : string :=
  match s with
  | String a r => if is_json_ws a then skip_ws r else s
  | EmptyString => s
  end.

(** JSON number: an optional minus, an integer part without a leading
    zero, an optional fraction and an optional exponent, each with digits. *)
Definition parse_json_number (s : string) : option (number * string) :=
  let '(neg, r0) :=
    match s with String "-" r => (true, r) | _ => (false, s) end in
  let '(ip, ic, r1) := read_digits r0 0 0 in
  let leading_zero := match r0 with String "0" _ => 1 <? ic | _ => false end in
  if (ic =? 0) || leading_zero then None
  else
    let frac :=
      match r1 with
      | String "." r' =>
          let '(m, fc, r2) := read_digits r' ip 0 in
          if fc =? 0 then None else Some (m, fc, r2)
      | _ => Some (ip, 0, r1)
      end in
    match frac with
    | Some (m, fc, r2) =>
        match read_exponent r2 with
        | Some (ex, r3) => Some (of_decimal neg m (ex - fc), r3)
        | None => None
        end
    | None => None
    end.

Definition hex4 (s : string) : option (Z * string) :=
  match s with
  | String a (String b (String c (String d r))) =>
      match radix_digit 16 a, radix_digit 16 b, radix_digit 16 c, radix_digit 16 d with
      | Some x, Some y, Some z, Some w => Some (((x * 16 + y) * 16 + z) * 16 + w, r)
      | _, _, _, _ => None
      end
  | _ => None
  end.

Definition byte (z : Z) : ascii := ascii_of_nat (Z.to_nat z).

(** The UTF-8 bytes of a code point. *)
Definition utf8 (cp : Z) : string :=
  if cp <? 128 then String (byte cp) EmptyString
  else if cp <? 2048 then
    String (byte (192 + cp / 64)) (String (byte (128 + cp mod 64)) EmptyString)
  else if cp <? 65536 then
    String (byte (224 + cp / 4096))
      (String (byte (128 + (cp / 64) mod 64)) (String (byte (128 + cp mod 64)) EmptyString))
  else
    String (byte (240 + cp / 262144))
      (String (byte (128 + (cp / 4096) mod 64))
         (String (byte (128 + (cp / 64) mod 64)) (String (byte (128 + cp mod 64)) EmptyString))).

(** A [\uXXXX] escape, joined with a following low surrogate when it is a
    high one. *)
Definition unicode_escape (s : string) : option (string * string) :=
  match hex4 s with
  | Some (hi, r) =>
      let alone := Some (utf8 hi, r) in
      if (55296 <=? hi) && (hi <=? 56319) then
        match r with
        | String "\" (String "u" r') =>
            match hex4 r' with
            | Some (lo, r'') =>
                if (56320 <=? lo) && (lo <=? 57343)
                then Some (utf8 (65536 + (hi - 55296) * 1024 + (lo - 56320)), r'')
                else alone
            | None => alone
            end
        | _ => alone
        end
      else alone
  | None => None
  end.

Definition simple_escape (e : ascii) : option ascii :=
  if Ascii.eqb e dquote then Some dquote
  else if Ascii.eqb e "\" then Some "\"%char
  else if Ascii.eqb e "/" then Some "/"%char
  else if Ascii.eqb e "b" then Some (ascii_of_nat 8)
  else if Ascii.eqb e "f" then Some (ascii_of_nat 12)
  else if Ascii.eqb e "n" then Some (ascii_of_nat 10)
  else if Ascii.eqb e "r" then Some (ascii_of_nat 13)
  else if Ascii.eqb e "t" then Some (ascii_of_nat 9)
  else None.

(** The characters of a string literal after its opening quote, up to and
    including the closing one. *)
Fixpoint parse_string_body (fuel : nat) (s : string) : option (string * string) :=
  match fuel with
  | O => None
  | S f =>
      match s with
      | EmptyString => None
      | String c r =>
          if Ascii.eqb c dquote then Some (EmptyString, r)
          else if Ascii.eqb c "\" then
            match r with
            | String e r1 =>
                match simple_escape e with
                | Some ch =>
                    match parse_string_body f r1 with
                    | Some (t, r2) => Some (String ch t, r2)
                    | None => None
                    end
                | None =>
                    if Ascii.eqb e "u" then
                      match unicode_escape r1 with
                      | Some (bytes, r2) =>
                          match parse_string_body f r2 with
                          | Some (t, r3) => Some ((bytes ++ t)%string, r3)
                          | None => None
                          end
                      | None => None
                      end
                    else None
                end
            | EmptyString => None
            end
          else if (nat_of_ascii c <? 32)%nat then None
          else match parse_string_body f r with
               | Some (t, r2) => Some (String c t, r2)
               | None => None
               end
      end
  end.

Definition parse_string (s : string) : option (string * string) :=
  parse_string_body (S (String.length s)) s.

Definition literal (word : string) (v : JsVal) (s : string) : option (JsVal * string) :=
  if prefix word s
  then Some (v, substring (String.length word) (String.length s - String.length word) s)
  else None.

Fixpoint parse_value (fuel : nat) (s : string) {struct fuel} : option (JsVal * string) :=
  match fuel with
  | O => None
  | S f =>
      match skip_ws s with
      | EmptyString => None
      | String c r =>
          if Ascii.eqb c "{" then
            match skip_ws r with
            | String "}" r' => Some (JObj [], r')
            | _ => match parse_members f r with
                   | Some (fs, r') => Some (JObj fs, r')
                   | None => None
                   end
            end
          else if Ascii.eqb c "[" then
            match skip_ws r with
            | String "]" r' => Some (JArr [], r')
            | _ => match parse_elements f r with
                   | Some (xs, r') => Some (JArr xs, r')
                   | None => None
                   end
            end
          else if Ascii.eqb c dquote then
            match parse_string r with
            | Some (t, r') => Some (JStr t, r')
            | None => None
            end
          else if Ascii.eqb c "t" then literal "true" (JBool true) (String c r)
          else if Ascii.eqb c "f" then literal "false" (JBool false) (String c r)
          else if Ascii.eqb c "n" then literal "null" JNull (String c r)
          else match parse_json_number (String c r) with
               | Some (x, r') => Some (JNum x, r')
               | None => None
               end
      end
  end
with parse_members (fuel : nat) (s : string) {struct fuel}
  : option (list (string * JsVal) * string) :=
  match fuel with
  | O => None
  | S f =>
      match skip_ws s with
      | String c r =>
          if Ascii.eqb c dquote then
            match parse_string r with
            | Some (k, r1) =>
                match skip_ws r1 with
                | String ":" r2 =>
                    match parse_value f r2 with
                    | Some (v, r3) =>
                        match skip_ws r3 with
                        | String "," r4 =>
                            match parse_members f r4 with
                            | Some (fs, r5) => Some ((k, v) :: fs, r5)
                            | None => None
                            end
                        | String "}" r4 => Some ([(k, v)], r4)
                        | _ => None
                        end
                    | None => None
                    end
                | _ => None
                end
            | None => None
            end
          else None
      | EmptyString => None
      end
  end
with parse_elements (fuel : nat) (s : string) {struct fuel}
  : option (list JsVal * string) :=
  match fuel with
  | O => None
  | S f =>
      match parse_value f s with
      | Some (v, r1) =>
          match skip_ws r1 with
          | String "," r2 =>
              match parse_elements f r2 with
              | Some (xs, r3) => Some (v :: xs, r3)
              | None => None
              end
          | String "]" r2 => Some ([v], r2)
          | _ => None
          end
      | None => None
      end
  end.

Definition unexpected_token : JsError := SyntaxError "Unexpected token in JSON".

(** [JSON.parse(text)]: one value, surrounded by optional white space. *)
Definition JSON_parse (text : string) : Outcome JsVal :=
  match parse_value (2 * String.length text + 2) text with
  | Some (v, r) =>
      match skip_ws r with
      | EmptyString => Ok v
      | _ => Throw unexpected_token
      end
  | None => Throw unexpected_token
  end.

End JSValue.
Import JSValue.

(** ** The world: database rows, scripted collaborators, journal

    The Prisma schema, the payment-link wrapper ([lib/stripe]) and the
    providers are outside the sources; what the code observes of them is an
    input of the model. Provider replies and payment-link results are scripts
    consumed one item per call, and every call is journalled in order. *)

Module Prisma.

(** Modelled from the spec: the rows of the data model (Sequence, Client,
    Facture), with the columns the code reads and writes. The counter row is
    the one of key FACTURE_SEQ. *)
Record Sequence := mkSequence {
  dernierNumero : Z;
  annee : Z
}.

Record Client := mkClient {
  id : string;
  numDossier : string;
  raisonSociale : string;
  adresse : option string;
  siret : option string;
  domaineActivite : option string
}.

(** The columns [facture.create] is given, with the client it includes. *)
Record Facture := mkFacture {
  numeroSequentiel : Z;
  prefixe : string;
  numeroComplet : string;
  prestation : string;
  montantHT : number;
  tauxTVA : number;
  montantTVA : number;
  montantTTC : number;
  stripePaymentLink : option string;
  stripePaymentId : option string;
  clientId : string;
  client : Client
}.

End Prisma.

Module Effects.

Definition Blob := string.

Record HttpResponse := mkHttpResponse {
  ok : bool;
  text : string
}.

Inductive FetchOutcome :=
| Unreachable (what : string)
| Responds (r : HttpResponse).

Inductive BodyFormat := Base64Json | MultipartForm | ChatCompletion.

(** What [creerLienPaiement] resolves to. *)
Record StripeResult := mkStripeResult {
  stripe_success : bool;
  url : option string;
  paymentLinkId : option string
}.

Inductive StripeOutcome :=
| StripeRejects (e : JsError)
| StripeResolves (r : StripeResult).

Inductive Event :=
| EvFetch (endpoint : string) (format : BodyFormat)
| EvClientFindUnique (key : string)
| EvTransaction (issued : Z)
| EvCreerLienPaiement (numeroFacture : string)
| EvFactureCreate (numeroComplet : string).

Record World := mkWorld {
  sequence : option Prisma.Sequence;
  clients : list Prisma.Client;
  factures : list Prisma.Facture;
  network : list FetchOutcome;
  stripe : list StripeOutcome;
  journal : list Event
}.

(** [process.env] and the clock, read-only during a call. *)
Record Env := mkEnv {
  OPENROUTER_API_KEY : option string;
  STRIPE_SECRET_KEY : option string;
  fullYear : Z
}.

(** Truthiness of an environment variable: unset and empty are falsy. *)
Definition configured (v : option string) : bool :=
  match v with
  | Some s => negb (String.eqb s EmptyString)
  | None => false
  end.

(** The state-and-exception monad of an async function body. *)
Definition M (A : Type) : Type := World -> Outcome A * World.

Definition ret {A} (a : A) : M A := fun w => (Ok a, w).

Definition throw {A} (e : JsError) : M A := fun w => (Throw e, w).

Definition bind {A B} (c : M A) (k : A -> M B) : M B :=
  fun w =>
    match c w with
    | (Ok a, w') => k a w'
    | (Throw e, w') => (Throw e, w')
    end.

(** [try { c } catch (error) { h error }]. *)
Definition try_catch {A} (c : M A) (h : JsError -> M A) : M A :=
  fun w =>
    match c w with
    | (Ok a, w') => (Ok a, w')
    | (Throw e, w') => h e w'
    end.

Definition lift {A} (o : Outcome A) : M A := fun w => (o, w).

Definition record (ev : Event) (w : World) : World :=
  mkWorld (sequence w) (clients w) (factures w) (network w) (stripe w)
          (journal w ++ [ev]).

Definition log (ev : Event) : M unit := fun w => (Ok tt, record ev w).

(** [fetch]: the next scripted outcome; an exhausted script behaves like an
    unreachable host. *)
Definition fetch (endpoint : string) (format : BodyFormat) : M HttpResponse :=
  fun w =>
    let w1 := record (EvFetch endpoint format) w in
    match network w1 with
    | [] => (Throw (FetchError "fetch failed"), w1)
    | o :: rest =>
        let w2 := mkWorld (sequence w1) (clients w1) (factures w1) rest
                          (stripe w1) (journal w1) in
        match o with
        | Unreachable what => (Throw (FetchError what), w2)
        | Responds r => (Ok r, w2)
        end
    end.

(** [prisma.client.findUnique({ where: { numDossier } })]. *)
Definition client_findUnique (key : string) : M (option Prisma.Client) :=
  fun w =>
    (Ok (find (fun c => String.eqb (Prisma.numDossier c) key) (clients w)),
     record (EvClientFindUnique key) w).

Definition set_sequence (s : Prisma.Sequence) (w : World) : World :=
  mkWorld (Some s) (clients w) (factures w) (network w) (stripe w) (journal w).

(** [tx.sequence.findUnique({ where: { id: 'FACTURE_SEQ' } })]. *)
Definition sequence_findUnique : M (option Prisma.Sequence) :=
  fun w => (Ok (sequence w), w).

(** [tx.sequence.create({ data })]: the created row. *)
Definition sequence_create (data : Prisma.Sequence) : M Prisma.Sequence :=
  fun w => (Ok data, set_sequence data w).

(** [tx.sequence.update({ where, data })]: the updated row; updating a row
    that does not exist is refused by the store. *)
Definition sequence_update (f : Prisma.Sequence -> Prisma.Sequence) : M Prisma.Sequence :=
  fun w =>
    match sequence w with
    | Some s => (Ok (f s), set_sequence (f s) w)
    | None => (Throw (TypeError "Record to update not found"), w)
    end.

(** [prisma.$transaction]: the rows are restored when the body throws. *)
Definition transaction {A} (c : M A) : M A :=
  fun w =>
    match c w with
    | (Ok a, w') => (Ok a, w')
    | (Throw e, w') =>
        (Throw e, mkWorld (sequence w) (clients w) (factures w)
                          (network w') (stripe w') (journal w'))
    end.

(** [creerLienPaiement(args)] from [lib/stripe]: the next scripted outcome. *)
Definition creerLienPaiement (numeroFacture : string) : M StripeResult :=
  fun w =>
    let w1 := record (EvCreerLienPaiement numeroFacture) w in
    match stripe w1 with
    | [] => (Throw (FetchError "stripe unreachable"), w1)
    | o :: rest =>
        let w2 := mkWorld (sequence w1) (clients w1) (factures w1) (network w1)
                          rest (journal w1) in
        match o with
        | StripeRejects e => (Throw e, w2)
        | StripeResolves r => (Ok r, w2)
        end
    end.

(** Modelled from the spec: the Prisma schema is not among the sources. The
    data model gives [prestation] as the description text of the invoice, so
    the column is a string and [facture.create] refuses any other value. *)
Definition prestation_column (v : JsVal) : Outcome string :=
  match v with
  | JStr p => Ok p
  | _ => Throw (TypeError "Argument prestation: expected String")
  end.

(** [prisma.facture.create({ data, include: { client: true } })]. *)
Definition facture_create (f : Prisma.Facture) : M Prisma.Facture :=
  fun w =>
    (Ok f,
     record (EvFactureCreate (Prisma.numeroComplet f))
       (mkWorld (sequence w) (clients w) (factures w ++ [f]) (network w)
                (stripe w) (journal w))).

End Effects.
Import Effects.

Notation "x <- c ;; k" := (bind c (fun x => k))
  (at level 61, c at next level, right associativity).

(** ** [src/lib/facture-utils.ts] *)

Module FactureUtils.

Record NumeroFacture := mkNumeroFacture {
  numeroSequentiel : Z;
  prefixe : string;
  numeroComplet : string
}.

(** [getNextFactureNumber()], with the year [new Date().getFullYear()]
    returned at the call. *)
Definition getNextFactureNumber (anneeEnCours : Z) : M NumeroFacture :=
  let prefixe := ("FA-" ++ Z_to_string anneeEnCours ++ "-")%string in
  result <- transaction (
    found <- sequence_findUnique ;;
    sequence <- match found with
                | Some s => ret s
                | None => sequence_create
                            {| Prisma.dernierNumero := 0; Prisma.annee := anneeEnCours |}
                end ;;
    sequence <- (if Prisma.annee sequence =? anneeEnCours then ret sequence
                 else sequence_update (fun _ =>
                        {| Prisma.dernierNumero := 0; Prisma.annee := anneeEnCours |})) ;;
    let nouveauNumero := Prisma.dernierNumero sequence + 1 in
    _ <- sequence_update (fun s =>
           {| Prisma.dernierNumero := nouveauNumero; Prisma.annee := Prisma.annee s |}) ;;
    _ <- log (EvTransaction nouveauNumero) ;;
    ret nouveauNumero) ;;
  let numeroComplet := (prefixe ++ padStart (Z_to_string result) 4 "0")%string in
  ret {| numeroSequentiel := result; prefixe := prefixe; numeroComplet := numeroComplet |}.

(** Calls made one after the other, each completing before the next
    starts, all within the year [anneeEnCours]. *)
Fixpoint appels_successifs (anneeEnCours : Z) (n : nat) : M (list NumeroFacture) :=
  match n with
  | O => ret []
  | S n' =>
      r <- getNextFactureNumber anneeEnCours ;;
      rs <- appels_successifs anneeEnCours n' ;;
      ret (r :: rs)
  end.

Record Montants := mkMontants {
  montantHT : number;
  tauxTVA : number;
  montantTVA : number;
  montantTTC : number
}.

(** [calculerMontants(montantHT, tauxTVA = 20)]. *)
Definition calculerMontants (montantHT tauxTVA : number) : Montants :=
  let montantTVA := (Math_round (montantHT * (tauxTVA / 100) * 100) / 100)%float in
  let montantTTC := (Math_round ((montantHT + montantTVA) * 100) / 100)%float in
  {| montantHT := (Math_round (montantHT * 100) / 100)%float;
     tauxTVA := tauxTVA;
     montantTVA := montantTVA;
     montantTTC := montantTTC |}.




End FactureUtils.

(** ** [src/lib/openrouter.ts] *)

Module OpenRouter.

Definition OPENROUTER_API_URL : string := "https://openrouter.ai/api/v1".

Record TranscriptionResult := mkTranscriptionResult {
  t_text : JsVal;
  t_success : bool;
  t_error : option string
}.

Record ExtractionResult := mkExtractionResult {
  numDossier : string;
  montantHT : number;
  prestation : string;
  success : bool;
  error : option string;
  rawResponse : option string
}.

(** [v || ''] *)
Definition or_empty (v : JsVal) : JsVal := if truthy v then v else JStr EmptyString.

(** [transcrireAudio(audioBlob)]. *)
Definition transcrireAudio (env : Env) (audioBlob : Blob) : M TranscriptionResult :=
  if negb (configured (OPENROUTER_API_KEY env)) then
    ret {| t_text := JStr EmptyString; t_success := false;
           t_error := Some "Clé API OpenRouter non configurée"%string |}
  else
    try_catch
      (response <- fetch (OPENROUTER_API_URL ++ "/audio/transcriptions") Base64Json ;;
       if negb (ok response) then
         ret {| t_text := JStr EmptyString; t_success := false;
                t_error := Some ("Erreur transcription: " ++ text response)%string |}
       else
         data <- lift (JSON_parse (text response)) ;;
         t <- lift (prop data "text") ;;
         ret {| t_text := or_empty t; t_success := true; t_error := None |})
      (fun e =>
         ret {| t_text := JStr EmptyString; t_success := false;
                t_error := Some ("Erreur: " ++ message e)%string |}).

(** The text from the first opening brace of [s] on, that brace removed. *)
Fixpoint after_first_brace (s : string) : option string :=
  match s with
  | EmptyString => None
  | String a r => if Ascii.eqb a "{" then Some r else after_first_brace r
  end.

(** The prefix of [s] that ends at its last closing brace. *)
Fixpoint upto_last_brace (s : string) : option string :=
  match s with
  | EmptyString => None
  | String a r =>
      match upto_last_brace r with
      | Some t => Some (String a t)
      | None => if Ascii.eqb a "}" then Some (String a EmptyString) else None
      end
  end.

(** [content.match(/\{[\s\S]*\}/)]: from the first opening brace that has a
    closing brace after it, greedily to the last closing brace; null when
    there is none. *)
Definition jsonMatch (content : string) : option string :=
  match after_first_brace content with
  | Some r =>
      match upto_last_brace r with
      | Some t => Some (String "{" t)
      | None => None
      end
  | None => None
  end.

Definition echec (err : string) (raw : option string) : ExtractionResult :=
  {| numDossier := EmptyString; montantHT := PrimFloat.zero; prestation := EmptyString;
     success := false; error := Some err; rawResponse := raw |}.

(** [data.choices?.[0]?.message?.content || ''] *)
Definition contenu (data : JsVal) : Outcome JsVal :=
  match prop data "choices" with
  | Ok choices => Ok (or_empty (prop_opt (prop_opt (index0_opt choices) "message") "content"))
  | Throw e => Throw e
  end.

(** The fields read off the parsed object. *)
Definition champs (parsed : JsVal) (content : string) : Outcome ExtractionResult :=
  match prop parsed "numDossier" with
  | Throw e => Throw e
  | Ok vd =>
    match ToString (or_empty vd) with
    | Throw e => Throw e
    | Ok sd =>
      match prop parsed "montantHT" with
      | Throw e => Throw e
      | Ok vm =>
        match ToNumber vm with
        | Throw e => Throw e
        | Ok n =>
          match prop parsed "prestation" with
          | Throw e => Throw e
          | Ok vp =>
            match ToString (or_empty vp) with
            | Throw e => Throw e
            | Ok sp =>
                Ok {| numDossier := trim (toUpperCase sd);
                      montantHT := if number_truthy n then n else PrimFloat.zero;
                      prestation := trim sp;
                      success := true;
                      error := None;
                      rawResponse := Some content |}
            end
          end
        end
      end
    end
  end.

(** [extraireInfosFacture(transcription)]. The argument is whatever the
    caller passes; it is converted to a string when the request is built. *)
Definition extraireInfosFacture (env : Env) (transcription : JsVal) : M ExtractionResult :=
  if negb (configured (OPENROUTER_API_KEY env)) then
    ret (echec "Clé API OpenRouter non configurée" None)
  else
    try_catch
      (_ <- lift (ToString transcription) ;;
       response <- fetch (OPENROUTER_API_URL ++ "/chat/completions") ChatCompletion ;;
       if negb (ok response) then
         ret (echec ("Erreur extraction: " ++ text response) None)
       else
         data <- lift (JSON_parse (text response)) ;;
         c <- lift (contenu data) ;;
         match c with
         | JStr content =>
             match jsonMatch content with
             | None => ret (echec "Format de réponse invalide" (Some content))
             | Some matched =>
                 parsed <- lift (JSON_parse matched) ;;
                 lift (champs parsed content)
             end
         | _ => throw (TypeError "content.match is not a function")
         end)
      (fun e => ret (echec ("Erreur: " ++ message e) None)).

End OpenRouter.

(** ** [src/app/api/generate/route.ts] *)

Module Route.

Inductive FormValue :=
| FormString (s : string)
| FormFile (b : Blob).

(** The body as the framework decodes it: form entries, or a text that
    [request.json()] parses. *)
Inductive Payload :=
| FormData (entries : list (string * FormValue))
| Text (raw : string).

Record Request := mkRequest {
  content_type : option string;
  payload : Payload
}.

Inductive ResponseBody :=
| RError (error : string)
| RDemo (transcription : string)
| REchec (error : string)
| RTranscription (transcription : JsVal)
| RExtraction (success : bool) (extraction : OpenRouter.ExtractionResult)
              (clientTrouve : bool) (client : option Prisma.Client)
              (error : option string)
| RFacture (facture : Prisma.Facture) (message : string).

Record Response := mkResponse {
  status : Z;
  body : ResponseBody
}.

(** [NextResponse.json(body)] and [NextResponse.json(body, { status })]. *)
Definition json (b : ResponseBody) : Response := {| status := 200; body := b |}.
Definition json_status (b : ResponseBody) (st : Z) : Response := {| status := st; body := b |}.

Definition whisper_url : string := "https://openrouter.ai/api/v1/audio/transcriptions".

(** [formData.get('audio')]. *)
Definition form_get (entries : list (string * FormValue)) (name : string) : option FormValue :=
  match find (fun e => String.eqb (fst e) name) entries with
  | Some (_, v) => Some v
  | None => None
  end.

Definition form_truthy (v : option FormValue) : bool :=
  match v with
  | Some (FormFile _) => true
  | Some (FormString s) => negb (String.eqb s EmptyString)
  | None => false
  end.

(** [request.formData()] and [request.json()]. *)
Definition request_formData (request : Request) : Outcome (list (string * FormValue)) :=
  match payload request with
  | FormData entries => Ok entries
  | Text _ => Throw (TypeError "Failed to parse body as FormData")
  end.

Definition request_json (request : Request) : Outcome JsVal :=
  match payload request with
  | Text raw => JSON_parse raw
  | FormData _ => Throw unexpected_token
  end.

(** Cas 1: transcription of a recorded audio. *)
Definition cas_transcription (env : Env) (request : Request) : M Response :=
  formData <- lift (request_formData request) ;;
  let audio := form_get formData "audio" in
  if negb (form_truthy audio) then
    ret (json_status (RError "Fichier audio requis") 400)
  else if negb (configured (OPENROUTER_API_KEY env)) then
    ret (json (RDemo "[Mode démo] Veuillez configurer OPENROUTER_API_KEY"))
  else
    match audio with
    | Some (FormFile _) =>
        whisperResponse <- fetch whisper_url Base64Json ;;
        if negb (ok whisperResponse) then
          whisperResponse2 <- fetch whisper_url MultipartForm ;;
          if negb (ok whisperResponse2) then
            ret (json_status (REchec ("Erreur Whisper: " ++ text whisperResponse2)) 500)
          else
            whisperData <- lift (JSON_parse (text whisperResponse2)) ;;
            t <- lift (prop whisperData "text") ;;
            ret (json (RTranscription (OpenRouter.or_empty t)))
        else
          whisperData <- lift (JSON_parse (text whisperResponse)) ;;
          t <- lift (prop whisperData "text") ;;
          ret (json (RTranscription (OpenRouter.or_empty t)))
    | _ => throw (TypeError "audio.arrayBuffer is not a function")
    end.

(** Cas 2: extraction from a transcription. *)
Definition cas_extract (env : Env) (body : JsVal) : M Response :=
  transcription <- lift (prop body "transcription") ;;
  if negb (truthy transcription) then
    ret (json_status (RError "Transcription requise") 400)
  else
    extraction <- OpenRouter.extraireInfosFacture env transcription ;;
    if OpenRouter.success extraction
       && negb (String.eqb (OpenRouter.numDossier extraction) EmptyString) then
      client <- client_findUnique (OpenRouter.numDossier extraction) ;;
      ret (json (RExtraction true extraction
                   (match client with Some _ => true | None => false end)
                   client None))
    else
      ret (json (RExtraction (OpenRouter.success extraction) extraction false None
                   (OpenRouter.error extraction))).

(** Cas 3: creation of the invoice. *)
Definition cas_create (env : Env) (body : JsVal) : M Response :=
  numDossier <- lift (prop body "numDossier") ;;
  montantHT <- lift (prop body "montantHT") ;;
  prestation <- lift (prop body "prestation") ;;
  g <- lift (prop body "genererStripe") ;;
  let genererStripe := match g with JUndefined => JBool true | _ => g end in
  if negb (truthy numDossier) || negb (truthy montantHT) || negb (truthy prestation) then
    ret (json_status
           (RError "Données incomplètes: numDossier, montantHT et prestation requis") 400)
  else
    match numDossier with
    | JStr nd =>
        client <- client_findUnique (trim (toUpperCase nd)) ;;
        match client with
        | None =>
            ret (json_status (RError ("Dossier " ++ nd ++ " non trouvé dans la base")) 404)
        | Some client =>
            n <- lift (ToNumber montantHT) ;;
            let montants := FactureUtils.calculerMontants n 20 in
            numero <- FactureUtils.getNextFactureNumber (fullYear env) ;;
            lien <-
              (if truthy genererStripe && configured (STRIPE_SECRET_KEY env) then
                 stripeResult <- creerLienPaiement (FactureUtils.numeroComplet numero) ;;
                 if stripe_success stripeResult then
                   ret (match url stripeResult with
                        | Some u => if String.eqb u EmptyString then None else Some u
                        | None => None
                        end,
                        match paymentLinkId stripeResult with
                        | Some i => if String.eqb i EmptyString then None else Some i
                        | None => None
                        end)
                 else ret (None, None)
               else ret (None, None)) ;;
            p <- lift (prestation_column prestation) ;;
            facture <- facture_create
                  {| Prisma.numeroSequentiel := FactureUtils.numeroSequentiel numero;
                     Prisma.prefixe := FactureUtils.prefixe numero;
                     Prisma.numeroComplet := FactureUtils.numeroComplet numero;
                     Prisma.prestation := p;
                     Prisma.montantHT := FactureUtils.montantHT montants;
                     Prisma.tauxTVA := FactureUtils.tauxTVA montants;
                     Prisma.montantTVA := FactureUtils.montantTVA montants;
                     Prisma.montantTTC := FactureUtils.montantTTC montants;
                     Prisma.stripePaymentLink := fst lien;
                     Prisma.stripePaymentId := snd lien;
                     Prisma.clientId := Prisma.id client;
                     Prisma.client := client |} ;;
            ret (json (RFacture facture
                         ("Facture " ++ FactureUtils.numeroComplet numero
                          ++ " créée avec succès")))
        end
    | _ => throw (TypeError "numDossier.toUpperCase is not a function")
    end.

(** [POST(request)]. *)
Definition POST (env : Env) (request : Request) : M Response :=
  try_catch
    (let contentType := match content_type request with
                        | Some h => h
                        | None => EmptyString
                        end in
     if includes contentType "multipart/form-data" then cas_transcription env request
     else
       body <- lift (request_json request) ;;
       action <- lift (prop body "action") ;;
       match action with
       | JStr a =>
           if String.eqb a "extract" then cas_extract env body
           else if String.eqb a "create" then cas_create env body
           else ret (json_status (RError "Action non reconnue") 400)
       | _ => ret (json_status (RError "Action non reconnue") 400)
       end)
    (fun e => ret (json_status (RError (message e)) 500)).

End Route.

(** * Specification vocabulary and sample data

    The predicates and functions the statements are written with, and the
    requests, worlds and provider replies they are evaluated on. *)

Import Route.
Import OpenRouter.
Import FactureUtils.

(** The last number issued for the year [y] according to the counter row:
    0 when the row is absent or belongs to another year. *)
Definition dernier_emis (y : Z) (w : World) : Z :=
  match sequence w with
  | Some s => if Prisma.annee s =? y then Prisma.dernierNumero s else 0
  | None => 0
  end.

Definition numero_pour (y n : Z) : NumeroFacture :=
  {| numeroSequentiel := n;
     prefixe := "FA-" ++ Z_to_string y ++ "-";
     numeroComplet := ("FA-" ++ Z_to_string y ++ "-") ++ padStart (Z_to_string n) 4 "0" |}.

(** The world after a call that issued [n] for the year [y]. *)
Definition apres_emission (y n : Z) (w : World) : World :=
  record (EvTransaction n)
    (set_sequence {| Prisma.dernierNumero := n; Prisma.annee := y |} w).

(** A counter row left by the previous year. *)
Definition monde_2025 : World :=
  {| sequence := Some {| Prisma.dernierNumero := 41; Prisma.annee := 2025 |};
     clients := []; factures := []; network := []; stripe := []; journal := [] |}.





(** The member [k] of a parsed JSON object, undefined when absent. *)
Definition champ (fields : list (string * JsVal)) (k : string) : JsVal :=
  match own fields k with
  | Some v => v
  | None => JUndefined
  end.

(** A request that is not multipart and whose body parses to a JSON object
    with the given [action]. *)
Definition requete_json (request : Request) (fields : list (string * JsVal))
           (action : string) : Prop :=
  includes (match content_type request with Some h => h | None => EmptyString end)
           "multipart/form-data" = false
  /\ request_json request = Ok (JObj fields)
  /\ champ fields "action" = JStr action.




(** A create request for a reference that is not on file. *)
Definition requete_inconnue : Request :=
  {| content_type := Some "application/json"%string;
     payload := Text (json_text
       "{'action':'create','numDossier':'zz9999','montantHT':250,'prestation':'Conseil'}") |}.


Definition env_demo : Env :=
  {| OPENROUTER_API_KEY := Some "sk-or-demo"%string;
     STRIPE_SECRET_KEY := Some "sk-test-demo"%string;
     fullYear := 2026 |}.

(** [genererStripe = true] in the destructuring: the default applies to an
    absent member only. *)
Definition genererStripe_de (fields : list (string * JsVal)) : JsVal :=
  let g := champ fields "genererStripe" in
  match g with
  | JUndefined => JBool true
  | _ => g
  end.

(** The row [cas_create] hands to [facture.create]. *)
Definition facture_de (numero : NumeroFacture) (p : string) (n : number)
           (lien : option string * option string) (c : Prisma.Client) : Prisma.Facture :=
  {| Prisma.numeroSequentiel := numeroSequentiel numero;
     Prisma.prefixe := prefixe numero;
     Prisma.numeroComplet := numeroComplet numero;
     Prisma.prestation := p;
     Prisma.montantHT := montantHT (calculerMontants n 20);
     Prisma.tauxTVA := tauxTVA (calculerMontants n 20);
     Prisma.montantTVA := montantTVA (calculerMontants n 20);
     Prisma.montantTTC := montantTTC (calculerMontants n 20);
     Prisma.stripePaymentLink := fst lien;
     Prisma.stripePaymentId := snd lien;
     Prisma.clientId := Prisma.id c;
     Prisma.client := c |}.

(** The case reference as it is matched: upper-cased, then trimmed. *)
Definition normaliser (nd : string) : string := trim (toUpperCase nd).

Definition dupont : Prisma.Client :=
  {| Prisma.id := "cl_1"; Prisma.numDossier := "AM0028";
     Prisma.raisonSociale := "Dupont SARL"; Prisma.adresse := None;
     Prisma.siret := None; Prisma.domaineActivite := None |}.

(** One client on file, no invoice yet, and a payment-link provider that
    answers with a failure result. *)
Definition monde_cabinet : World :=
  {| sequence := None; clients := [dupont]; factures := []; network := [];
     stripe := [StripeResolves {| stripe_success := false; url := None;
                                  paymentLinkId := None |}];
     journal := [] |}.

Definition requete_creation : Request :=
  {| content_type := Some "application/json"%string;
     payload := Text (json_text
       "{'action':'create','numDossier':' am0028 ','montantHT':100,'prestation':'Bilan annuel'}") |}.

Definition champs_creation : list (string * JsVal) :=
  [("action", JStr "create"); ("numDossier", JStr " am0028 ");
   ("montantHT", JNum 100); ("prestation", JStr "Bilan annuel")]%string.


(** The world after one more provider call that consumed the head of the
    script. *)
Definition apres_fetch (endpoint : string) (format : BodyFormat)
           (rest : list FetchOutcome) (w : World) : World :=
  {| sequence := sequence w; clients := clients w; factures := factures w;
     network := rest; stripe := stripe w;
     journal := journal w ++ [EvFetch endpoint format] |}.

Definition chat_url : string := (OPENROUTER_API_URL ++ "/chat/completions")%string.

(** What [extraireInfosFacture] returns from the text of the model. *)
Definition selon_contenu (content : string) : ExtractionResult :=
  match jsonMatch content with
  | None => echec "Format de réponse invalide" (Some content)
  | Some matched =>
      match JSON_parse matched with
      | Throw e => echec ("Erreur: " ++ message e) None
      | Ok parsed =>
          match champs parsed content with
          | Ok r => r
          | Throw e => echec ("Erreur: " ++ message e) None
          end
      end
  end.

(** A successful provider reply whose first choice carries the text
    [content]. *)
Definition reponse_modele (env : Env) (transcription : JsVal) (w : World)
           (rest : list FetchOutcome) (content : string) : Prop :=
  configured (OPENROUTER_API_KEY env) = true
  /\ (exists s, ToString transcription = Ok s)
  /\ exists (resp : HttpResponse) (data : JsVal),
       network w = Responds resp :: rest
       /\ ok resp = true
       /\ JSON_parse (text resp) = Ok data
       /\ contenu data = Ok (JStr content).

(** A provider reply whose choice carries the given text. *)
Definition reponse_chat (content : string) : FetchOutcome :=
  Responds {| ok := true;
              text := json_text ("{'choices':[{'message':{'role':'assistant','content':'"
                                  ++ content ++ "'}}]}") |}.

Definition monde_reponse (content : string) : World :=
  {| sequence := None; clients := [dupont]; factures := [];
     network := [reponse_chat content]; stripe := []; journal := [] |}.

Definition dictee : JsVal := JStr "Facture pour le dossier AM0028, bilan annuel, cent euros".



Definition requete_extract : Request :=
  {| content_type := Some "application/json"%string;
     payload := Text (json_text
       "{'action':'extract','transcription':'Facture pour le dossier AM0028'}") |}.


Definition monde_extraction : World :=
  monde_reponse "{\'numDossier\': \'am0028\', \'montantHT\': 100, \'prestation\': \'Bilan annuel\'}".

Definition contenu_extraction : string :=
  json_text "{'numDossier': 'am0028', 'montantHT': 100, 'prestation': 'Bilan annuel'}".

Definition transcriptions_url : string :=
  (OPENROUTER_API_URL ++ "/audio/transcriptions")%string.








(** ** Observations kept and events journalled by a computation *)

(** [c] leaves the observation [f] of the world as it found it. *)
Definition conserve {A X : Type} (f : World -> X) (c : M A) : Prop :=
  forall w, f (snd (c w)) = f w.

(** [c] only appends to the journal, and only events satisfying [P]. *)
Definition journalise {A : Type} (P : Event -> Prop) (c : M A) : Prop :=
  forall w, exists evs, journal (snd (c w)) = journal w ++ evs /\ Forall P evs.

(** The rows of the three tables. *)
Definition tables (w : World) : option Prisma.Sequence * list Prisma.Client * list Prisma.Facture :=
  (sequence w, clients w, factures w).

Definition est_fetch (ev : Event) : Prop :=
  match ev with EvFetch _ _ => True | _ => False end.

Definition hors_fetch (ev : Event) : Prop :=
  match ev with EvFetch _ _ => False | _ => True end.

(** Events of a request that reads at most the client directory. *)
Definition sans_ecriture (ev : Event) : Prop :=
  match ev with
  | EvFetch _ _ | EvClientFindUnique _ => True
  | _ => False
  end.

(** A string that is empty or starts with a character that is not white
    space. *)
Definition debut_net (s : string) : Prop :=
  match s with
  | EmptyString => True
  | String a _ => is_space a = false
  end.

(** What every result of [extraireInfosFacture] looks like: a success has
    no error, carries the raw text, a reference that is already normalised,
    a trimmed description and an amount that is not NaN; a failure has an
    error message and the three fields at their neutral values. *)
Definition resultat_bien_forme (r : ExtractionResult) : Prop :=
  if success r then
    error r = None
    /\ (exists raw, rawResponse r = Some raw)
    /\ normaliser (numDossier r) = numDossier r
    /\ trim (prestation r) = prestation r
    /\ PrimFloat.is_nan (OpenRouter.montantHT r) = false
  else
    (exists m, error r = Some m)
    /\ numDossier r = EmptyString
    /\ OpenRouter.montantHT r = PrimFloat.zero
    /\ prestation r = EmptyString.

(** What every result of [transcrireAudio] looks like. *)
Definition transcription_bien_formee (r : TranscriptionResult) : Prop :=
  if t_success r then
    t_error r = None /\ (truthy (t_text r) = true \/ t_text r = JStr EmptyString)
  else
    (exists m, t_error r = Some m) /\ t_text r = JStr EmptyString.

(** Every value [c] returns satisfies [Q]. *)
Definition retourne {A : Type} (Q : A -> Prop) (c : M A) : Prop :=
  forall w a, fst (c w) = Ok a -> Q a.

(** The statuses the handler answers with. *)
Definition statut_connu (resp : Response) : Prop :=
  status resp = 200 \/ status resp = 400 \/ status resp = 404 \/ status resp = 500.


(** An answer that reports neither a validation error nor a missing
    client. *)
Definition ni_400_ni_404 (resp : Response) : Prop :=
  status resp <> 400 /\ status resp <> 404.

(** What an error answer tells about the effects of the request: a 400
    answer was given in the world as it was found, a 404 answer after one
    client lookup and nothing else. *)
Definition erreur_sans_effet (w : World) (resp : Response) (w' : World) : Prop :=
  (status resp = 400 -> w' = w)
  /\ (status resp = 404 -> exists key, w' = record (EvClientFindUnique key) w).

Definition prudent (c : M Response) : Prop :=
  forall w,
    match c w with
    | (Ok resp, w') => erreur_sans_effet w resp w'
    | (Throw _, _) => True
    end.

(** ** The order of effects and the shape of the created row *)

(** The handler's catch-all: any exception becomes a 500 answer carrying
    its message. *)
Definition en_cas_d_erreur : JsError -> M Response :=
  fun e => ret (json_status (RError (message e)) 500).

(** [l] is an initial segment of [full]. *)
Definition debut {A : Type} (l full : list A) : Prop := exists reste, full = l ++ reste.

(** The effects one request can journal, in order: at most the two provider
    calls of the transcription branch; or the model call of the extract
    branch, then one client lookup; or, for a create request, the client
    lookup, the numbering transaction, the payment-link call when it is
    made, and the insertion of the row, both under the number just issued in
    the year [y]. A request may stop anywhere along its sequence. *)
Definition suite_permise (y : Z) (evs : list Event) : Prop :=
  debut evs [EvFetch whisper_url Base64Json; EvFetch whisper_url MultipartForm]
  \/ (exists k, debut evs [EvFetch chat_url ChatCompletion; EvClientFindUnique k])
  \/ (exists k n,
        let num := numeroComplet (numero_pour y n) in
        debut evs [EvClientFindUnique k; EvTransaction n;
                   EvCreerLienPaiement num; EvFactureCreate num]
        \/ evs = [EvClientFindUnique k; EvTransaction n; EvFactureCreate num]).

(** An answer that carries no invoice. *)
Definition sans_facture (resp : Response) : Prop :=
  forall f msg, body resp <> RFacture f msg.

(** An answer that does not report a matched client. *)
Definition sans_client (resp : Response) : Prop :=
  forall s r c e, body resp <> RExtraction s r true (Some c) e.

(** What holds of an invoice [f] answered with the message [msg], from the
    world [w] to the world [w']: the answer is a 200, the row is the one
    appended to the invoices, the counter row holds its number, which
    follows the last one issued for the year; the full number is the prefix
    of the year followed by the number padded to four digits; the amounts
    are those of [calculerMontants] at the rate 20; a payment link or id is
    never the empty string; the client is one of the directory. *)
Definition facture_conforme (env : Env) (w : World) (resp : Response) (w' : World)
           (f : Prisma.Facture) (msg : string) : Prop :=
  status resp = 200
  /\ msg = ("Facture " ++ Prisma.numeroComplet f ++ " créée avec succès")%string
  /\ factures w' = factures w ++ [f]
  /\ clients w' = clients w
  /\ sequence w' = Some {| Prisma.dernierNumero := Prisma.numeroSequentiel f;
                           Prisma.annee := fullYear env |}
  /\ Prisma.numeroSequentiel f = dernier_emis (fullYear env) w + 1
  /\ Prisma.prefixe f = ("FA-" ++ Z_to_string (fullYear env) ++ "-")%string
  /\ Prisma.numeroComplet f
     = (Prisma.prefixe f ++ padStart (Z_to_string (Prisma.numeroSequentiel f)) 4 "0")%string
  /\ (exists n, Prisma.montantHT f = FactureUtils.montantHT (calculerMontants n 20)
                /\ Prisma.tauxTVA f = FactureUtils.tauxTVA (calculerMontants n 20)
                /\ Prisma.montantTVA f = FactureUtils.montantTVA (calculerMontants n 20)
                /\ Prisma.montantTTC f = FactureUtils.montantTTC (calculerMontants n 20))
  /\ Prisma.stripePaymentLink f <> Some EmptyString
  /\ Prisma.stripePaymentId f <> Some EmptyString
  /\ Prisma.clientId f = Prisma.id (Prisma.client f)
  /\ In (Prisma.client f) (clients w).

(** A create request that passes the validation, with a string reference
    whose normalised form is the key of the client [c], an amount that
    converts to [n] and the description [p]. *)
Definition creation_valide (request : Request) (fields : list (string * JsVal)) (w : World)
           (nd p : string) (n : number) (c : Prisma.Client) : Prop :=
  requete_json request fields "create"
  /\ champ fields "numDossier" = JStr nd
  /\ truthy (JStr nd) = true
  /\ truthy (champ fields "montantHT") = true
  /\ ToNumber (champ fields "montantHT") = Ok n
  /\ champ fields "prestation" = JStr p
  /\ truthy (JStr p) = true
  /\ find (fun c => String.eqb (Prisma.numDossier c) (normaliser nd)) (clients w) = Some c.

(** The number the next call issues in the world [w]. *)
Definition numero_suivant (env : Env) (w : World) : NumeroFacture :=
  numero_pour (fullYear env) (dernier_emis (fullYear env) w + 1).

Definition message_creation (numero : NumeroFacture) : string :=
  "Facture " ++ numeroComplet numero ++ " créée avec succès".

Definition monde_apres_creation : World :=
  snd (POST env_demo requete_creation monde_cabinet).

Definition facture_cabinet : Prisma.Facture :=
  facture_de (numero_pour 2026 1) "Bilan annuel" 100 (None, None) dupont.

(** The payment-link provider raises an exception. *)
Definition monde_stripe_en_panne : World :=
  {| sequence := None; clients := [dupont]; factures := []; network := [];
     stripe := [StripeRejects (FetchError "connect ETIMEDOUT")]; journal := [] |}.

(** The payment-link provider answers with a link. *)
Definition lien_stripe : StripeResult :=
  {| stripe_success := true; url := Some "https://buy.stripe.com/test_1"%string;
     paymentLinkId := Some "plink_1"%string |}.

Definition monde_stripe : World :=
  {| sequence := None; clients := [dupont]; factures := []; network := [];
     stripe := [StripeResolves lien_stripe]; journal := [] |}.

(** No payment provider key. *)
Definition env_sans_stripe : Env :=
  {| OPENROUTER_API_KEY := Some "sk-or-demo"%string;
     STRIPE_SECRET_KEY := None;
     fullYear := 2026 |}.

(** What the extraction returns for [monde_extraction], and a create
    request made with that reference. *)
Definition extraction_cabinet : ExtractionResult :=
  {| OpenRouter.numDossier := "AM0028"; OpenRouter.montantHT := 100;
     OpenRouter.prestation := "Bilan annuel"; OpenRouter.success := true;
     OpenRouter.error := None; OpenRouter.rawResponse := Some contenu_extraction |}.

Definition requete_creation_extraite : Request :=
  {| content_type := Some "application/json"%string;
     payload := Text (json_text
       "{'action':'create','numDossier':'AM0028','montantHT':100,'prestation':'Bilan annuel'}") |}.

Definition champs_creation_extraite : list (string * JsVal) :=
  [("action", JStr "create"); ("numDossier", JStr "AM0028");
   ("montantHT", JNum 100); ("prestation", JStr "Bilan annuel")]%string.

(** ** Numbering across years *)

(** Calls made one after the other, each completing before the next starts,
    the clock giving the years [annees] in turn. *)
Fixpoint appels_annees (annees : list Z) : M (list NumeroFacture) :=
  match annees with
  | [] => ret []
  | y :: ys =>
      r <- getNextFactureNumber y ;;
      rs <- appels_annees ys ;;
      ret (r :: rs)
  end.

(** The counter row, when there is one, holds a number that is not negative
    and a year that is not after any of [annees]. *)
Definition compteur_coherent (annees : list Z) (w : World) : Prop :=
  match sequence w with
  | None => True
  | Some s => 0 <= Prisma.dernierNumero s /\ Forall (fun y => Prisma.annee s <= y) annees
  end.

(** A pair (year, number) issued from the world [w]: the number is
    positive and, within the year of the counter row, above the stored one. *)
Definition borne (w : World) (yn : Z * Z) : Prop :=
  0 < snd yn
  /\ match sequence w with
     | Some s => fst yn = Prisma.annee s -> Prisma.dernierNumero s < snd yn
     | None => True
     end.

(** The character [c] does not occur in [s]. *)
Fixpoint sans_car (c : ascii) (s : string) : bool :=
  match s with
  | EmptyString => true
  | String a r => negb (Ascii.eqb a c) && sans_car c r
  end.

(** * Properties *)

Import FactureUtils.

(** ** Invoice numbering *)

Lemma append_assoc (a b c : string) : ((a ++ b) ++ c = a ++ (b ++ c))%string.
Proof. induction a as [|x a IH]; cbn; [reflexivity | now rewrite IH]. Qed.

Lemma getNextFactureNumber_run (y : Z) (w : World) :
  getNextFactureNumber y w
  = (Ok (numero_pour y (dernier_emis y w + 1)),
     apres_emission y (dernier_emis y w + 1) w).
Proof.
  unfold getNextFactureNumber, dernier_emis, numero_pour, apres_emission.
  unfold bind, transaction, sequence_findUnique, sequence_create, sequence_update,
    ret, log, set_sequence, record.
  destruct w as [sq cl fa ne st jo]; cbn [sequence clients factures network stripe journal].
  destruct sq as [[d a]|]; cbn.
  - destruct (a =? y) eqn:E; cbn.
    + apply Z.eqb_eq in E; subst a. reflexivity.
    + reflexivity.
  - rewrite Z.eqb_refl; cbn. reflexivity.
Qed.

Lemma dernier_emis_apres (y n : Z) (w : World) :
  dernier_emis y (apres_emission y n w) = n.
Proof.
  unfold dernier_emis, apres_emission, record, set_sequence; cbn.
  now rewrite Z.eqb_refl.
Qed.

Lemma appels_successifs_run (y : Z) (n : nat) :
  forall w, exists l w',
    appels_successifs y n w = (Ok l, w')
    /\ map numeroSequentiel l
       = map (fun i => dernier_emis y w + 1 + Z.of_nat i) (seq 0 n)
    /\ Forall (fun r => prefixe r = ("FA-" ++ Z_to_string y ++ "-")%string) l.
Proof.
  induction n as [|n IH]; intros w.
  - exists [], w. repeat split; constructor.
  - cbn [appels_successifs]. unfold bind at 1.
    rewrite getNextFactureNumber_run.
    destruct (IH (apres_emission y (dernier_emis y w + 1) w)) as (l & w' & Hrun & Hnum & Hpre).
    exists (numero_pour y (dernier_emis y w + 1) :: l), w'.
    unfold bind. rewrite Hrun. unfold ret. split; [reflexivity|]. split.
    + cbn [map seq numeroSequentiel numero_pour]. f_equal; [lia|].
      rewrite Hnum, dernier_emis_apres, <- seq_shift, map_map.
      apply map_ext. intros i. lia.
    + constructor; [reflexivity | exact Hpre].
Qed.

Lemma consecutive_sorted (b : Z) (n : nat) :
  forall k : nat,
    StronglySorted Z.lt (map (fun i => b + Z.of_nat i) (seq k n)).
Proof.
  induction n as [|n IH]; intros k; cbn [seq map].
  - constructor.
  - constructor; [apply IH|].
    apply Forall_forall. intros x Hx. apply in_map_iff in Hx.
    destruct Hx as (i & <- & Hi). apply in_seq in Hi. lia.
Qed.

Lemma sorted_NoDup (l : list Z) : StronglySorted Z.lt l -> NoDup l.
Proof.
  induction 1 as [|a l Hs IH Hall]; constructor; [|exact IH].
  intros Hin. rewrite Forall_forall in Hall. specialize (Hall a Hin). lia.
Qed.

(** C1: calls made one after the other within one year return consecutive,
    hence strictly increasing and pairwise distinct, sequence numbers under
    that year's prefix; the first call ever (no counter row) returns 1; and
    when the stored year differs from the current one the counter is reset,
    the call returning 1 under the new year's prefix and leaving the row at
    1 for the new year. *)
Theorem getNextFactureNumber_sequential :
  (forall (y : Z) (n : nat) (w : World),
     exists l w',
       appels_successifs y n w = (Ok l, w')
       /\ map numeroSequentiel l
          = map (fun i => dernier_emis y w + 1 + Z.of_nat i) (seq 0 n)
       /\ StronglySorted Z.lt (map numeroSequentiel l)
       /\ NoDup (map numeroSequentiel l)
       /\ Forall (fun r => prefixe r = ("FA-" ++ Z_to_string y ++ "-")%string) l)
  /\ (forall (y : Z) (w : World),
        sequence w = None ->
        exists r w',
          getNextFactureNumber y w = (Ok r, w') /\ numeroSequentiel r = 1)
  /\ (forall (y : Z) (w : World) (s : Prisma.Sequence),
        sequence w = Some s ->
        Prisma.annee s <> y ->
        exists r w',
          getNextFactureNumber y w = (Ok r, w')
          /\ numeroSequentiel r = 1
          /\ prefixe r = ("FA-" ++ Z_to_string y ++ "-")%string
          /\ numeroComplet r = ("FA-" ++ Z_to_string y ++ "-0001")%string
          /\ sequence w' = Some {| Prisma.dernierNumero := 1; Prisma.annee := y |}).
Proof.
  split; [|split].
  - intros y n w.
    destruct (appels_successifs_run y n w) as (l & w' & Hrun & Hnum & Hpre).
    exists l, w'. split; [exact Hrun|]. split; [exact Hnum|].
    assert (Hs : StronglySorted Z.lt (map numeroSequentiel l)).
    { rewrite Hnum. apply (consecutive_sorted (dernier_emis y w + 1) n 0). }
    split; [exact Hs|]. split; [apply sorted_NoDup; exact Hs | exact Hpre].
  - intros y w Hnone. rewrite getNextFactureNumber_run.
    eexists; eexists; split; [reflexivity|].
    unfold dernier_emis. rewrite Hnone. reflexivity.
  - intros y w s Hs Hy. rewrite getNextFactureNumber_run.
    assert (E : dernier_emis y w = 0).
    { unfold dernier_emis. rewrite Hs.
      destruct (Prisma.annee s =? y) eqn:Ey; [|reflexivity].
      apply Z.eqb_eq in Ey. contradiction. }
    rewrite E. eexists; eexists; split; [reflexivity|].
    cbn [numero_pour numeroSequentiel prefixe numeroComplet Z.add].
    repeat split.
    now rewrite !append_assoc.
Qed.

Lemma getNextFactureNumber_sequential_witness :
  sequence monde_2025 = Some {| Prisma.dernierNumero := 41; Prisma.annee := 2025 |}
  /\ exists r w',
       getNextFactureNumber 2026 monde_2025 = (Ok r, w')
       /\ numeroSequentiel r = 1
       /\ prefixe r = ("FA-" ++ Z_to_string 2026 ++ "-")%string
       /\ numeroComplet r = ("FA-" ++ Z_to_string 2026 ++ "-0001")%string
       /\ sequence w' = Some {| Prisma.dernierNumero := 1; Prisma.annee := 2026 |}.
Proof.
  split; [reflexivity|].
  apply (proj2 (proj2 getNextFactureNumber_sequential) 2026 monde_2025
           {| Prisma.dernierNumero := 41; Prisma.annee := 2025 |}).
  - reflexivity.
  - cbn. discriminate.
Defined.

(** Three calls in 2026 after 41 invoices of 2025, evaluated. *)
Example appels_2026 :
  map numeroComplet
    (match fst (appels_successifs 2026 3 monde_2025) with Ok l => l | Throw _ => [] end)
  = ["FA-2026-0001"; "FA-2026-0002"; "FA-2026-0003"]%string.
Proof. vm_compute. reflexivity. Qed.

(** ** Amounts *)

(** C4: the two worked examples of the amounts calculator. *)
Theorem calculerMontants_examples :
  calculerMontants 100 20
    = {| montantHT := 100; tauxTVA := 20; montantTVA := 20; montantTTC := 120 |}
  /\ montantTVA (calculerMontants 33.33 20) = 6.67%float
  /\ montantTTC (calculerMontants 33.33 20) = 40.00%float.
Proof. repeat split; vm_compute; reflexivity. Qed.












(** ** The generate route: requests *)

Import Route.

Lemma prop_champ (fields : list (string * JsVal)) (k : string) :
  prop (JObj fields) k = Ok (champ fields k).
Proof. reflexivity. Qed.

(** [POST] on a JSON request whose action is create runs [cas_create]
    under the handler's catch-all. *)
Lemma POST_create (env : Env) (request : Request) (fields : list (string * JsVal)) (w : World) :
  requete_json request fields "create" ->
  POST env request w
  = try_catch (cas_create env (JObj fields))
      (fun e => ret (json_status (RError (message e)) 500)) w.
Proof.
  intros (Hct & Hjson & Hact).
  unfold POST, try_catch. rewrite Hct.
  unfold bind at 1. unfold lift at 1. rewrite Hjson.
  unfold bind at 1. unfold lift at 1. rewrite prop_champ, Hact.
  reflexivity.
Qed.






(** [cas_create] up to the numbering, for a valid request of a known
    client: the lookup is journalled, the amount converted, the number
    issued; what remains is the payment link and the insertion. *)
Lemma cas_create_found (env : Env) (fields : list (string * JsVal)) (w : World)
      (nd p : string) (n : number) (c : Prisma.Client) :
  champ fields "numDossier" = JStr nd ->
  truthy (JStr nd) = true ->
  truthy (champ fields "montantHT") = true ->
  ToNumber (champ fields "montantHT") = Ok n ->
  champ fields "prestation" = JStr p ->
  truthy (JStr p) = true ->
  find (fun c => String.eqb (Prisma.numDossier c) (trim (toUpperCase nd))) (clients w) = Some c ->
  let w1 := record (EvClientFindUnique (trim (toUpperCase nd))) w in
  let k := dernier_emis (fullYear env) w1 + 1 in
  let numero := numero_pour (fullYear env) k in
  cas_create env (JObj fields) w
  = (lien <-
       (if truthy (genererStripe_de fields) && configured (STRIPE_SECRET_KEY env) then
          stripeResult <- creerLienPaiement (numeroComplet numero) ;;
          if stripe_success stripeResult then
            ret (match url stripeResult with
                 | Some u => if String.eqb u EmptyString then None else Some u
                 | None => None
                 end,
                 match paymentLinkId stripeResult with
                 | Some i => if String.eqb i EmptyString then None else Some i
                 | None => None
                 end)
          else ret (None, None)
        else ret (None, None)) ;;
     facture <- facture_create (facture_de numero p n lien c) ;;
     ret (json (RFacture facture
                  ("Facture " ++ numeroComplet numero ++ " créée avec succès"))))
    (apres_emission (fullYear env) k w1).
Proof.
  intros Hnd Tnd Tm Hn Hp Tp Hfind w1 k numero.
  unfold cas_create, bind, lift. rewrite !prop_champ.
  rewrite Hnd, Tnd, Tm, Hp, Tp. cbn [negb orb].
  unfold client_findUnique. rewrite Hfind. rewrite Hn.
  rewrite getNextFactureNumber_run.
  reflexivity.
Qed.

(** C5: for a valid create request of a known client, with a payment link
    requested and the provider key configured, a payment-link call that
    resolves to a failure result leaves the creation successful: the answer
    is the created invoice, its payment link and payment id are null, and
    the row is appended to the invoices. *)
Theorem create_survives_payment_failure :
  forall (env : Env) (request : Request) (fields : list (string * JsVal)) (w : World)
         (nd p : string) (n : number) (c : Prisma.Client)
         (r : StripeResult) (rest : list StripeOutcome),
    requete_json request fields "create" ->
    champ fields "numDossier" = JStr nd ->
    truthy (JStr nd) = true ->
    truthy (champ fields "montantHT") = true ->
    ToNumber (champ fields "montantHT") = Ok n ->
    champ fields "prestation" = JStr p ->
    truthy (JStr p) = true ->
    find (fun c => String.eqb (Prisma.numDossier c) (normaliser nd)) (clients w) = Some c ->
    truthy (genererStripe_de fields) = true ->
    configured (STRIPE_SECRET_KEY env) = true ->
    stripe w = StripeResolves r :: rest ->
    stripe_success r = false ->
    exists (facture : Prisma.Facture) (w' : World),
      POST env request w
      = (Ok (json (RFacture facture
                     ("Facture " ++ Prisma.numeroComplet facture ++ " créée avec succès"))),
         w')
      /\ Prisma.stripePaymentLink facture = None
      /\ Prisma.stripePaymentId facture = None
      /\ Prisma.client facture = c
      /\ factures w' = factures w ++ [facture]
      /\ journal w'
         = journal w ++ [EvClientFindUnique (normaliser nd);
                         EvTransaction (Prisma.numeroSequentiel facture);
                         EvCreerLienPaiement (Prisma.numeroComplet facture);
                         EvFactureCreate (Prisma.numeroComplet facture)].
Proof.
  intros env request fields w nd p n c r rest
         Hreq Hnd Tnd Tm Hn Hp Tp Hfind Tg Tkey Hstripe Hfail.
  rewrite (POST_create env request fields w Hreq). unfold try_catch.
  rewrite (cas_create_found env fields w nd p n c Hnd Tnd Tm Hn Hp Tp Hfind).
  rewrite Tg, Tkey. cbn [andb].
  unfold bind, creerLienPaiement.
  cbn [stripe record apres_emission set_sequence sequence clients factures network journal].
  rewrite Hstripe, Hfail.
  unfold ret, facture_create.
  exists (facture_de
            (numero_pour (fullYear env)
               (dernier_emis (fullYear env) (record (EvClientFindUnique (normaliser nd)) w) + 1))
            p n (None, None) c).
  eexists. split; [reflexivity|].
  cbn [Prisma.stripePaymentLink Prisma.stripePaymentId Prisma.client facture_de fst snd
       factures journal record sequence clients network stripe
       Prisma.numeroSequentiel Prisma.numeroComplet].
  repeat split.
  rewrite <- !app_assoc. reflexivity.
Qed.

Lemma create_survives_payment_failure_witness :
  exists (facture : Prisma.Facture) (w' : World),
    POST env_demo requete_creation monde_cabinet
    = (Ok (json (RFacture facture
                   ("Facture " ++ Prisma.numeroComplet facture ++ " créée avec succès"))),
       w')
    /\ Prisma.stripePaymentLink facture = None
    /\ Prisma.stripePaymentId facture = None
    /\ Prisma.client facture = dupont
    /\ factures w' = factures monde_cabinet ++ [facture]
    /\ journal w'
       = journal monde_cabinet
         ++ [EvClientFindUnique (normaliser " am0028 ");
             EvTransaction (Prisma.numeroSequentiel facture);
             EvCreerLienPaiement (Prisma.numeroComplet facture);
             EvFactureCreate (Prisma.numeroComplet facture)].
Proof.
  apply (create_survives_payment_failure env_demo requete_creation champs_creation
           monde_cabinet " am0028 " "Bilan annuel" 100 dupont
           {| stripe_success := false; url := None; paymentLinkId := None |} []).
  - repeat split; vm_compute; reflexivity.
  - reflexivity.
  - reflexivity.
  - vm_compute; reflexivity.
  - reflexivity.
  - reflexivity.
  - reflexivity.
  - vm_compute; reflexivity.
  - vm_compute; reflexivity.
  - reflexivity.
  - reflexivity.
  - reflexivity.
Defined.

(** The same request, evaluated. *)
Example creation_evaluee :
  match fst (POST env_demo requete_creation monde_cabinet) with
  | Ok {| status := 200; body := RFacture f _ |} =>
      Some (Prisma.numeroComplet f, Prisma.montantTTC f, Prisma.stripePaymentLink f,
            Prisma.numDossier (Prisma.client f))
  | _ => None
  end
  = Some ("FA-2026-0001"%string, 120%float, None, "AM0028"%string).
Proof. vm_compute. reflexivity. Qed.


(** ** Extraction *)

Import OpenRouter.

Lemma extraireInfosFacture_reply (env : Env) (transcription : JsVal) (w : World)
      (rest : list FetchOutcome) (content : string) :
  reponse_modele env transcription w rest content ->
  extraireInfosFacture env transcription w
  = (Ok (selon_contenu content), apres_fetch chat_url ChatCompletion rest w).
Proof.
  intros (Hkey & (s & Hs) & resp & data & Hnet & Hok & Hdata & Hc).
  unfold extraireInfosFacture. rewrite Hkey. cbn [negb].
  unfold try_catch, bind, lift, fetch. rewrite Hs.
  cbn [network record]. rewrite Hnet, Hok. cbn [negb].
  rewrite Hdata, Hc. unfold selon_contenu, apres_fetch, chat_url.
  cbn [sequence clients factures network stripe journal record].
  destruct (jsonMatch content) as [matched|]; [|reflexivity].
  destruct (JSON_parse matched) as [parsed|e]; [|reflexivity].
  destruct (champs parsed content) as [r|e]; reflexivity.
Qed.

Lemma champs_ok (fields : list (string * JsVal)) (content sd sp : string) (n : number) :
  ToString (or_empty (champ fields "numDossier")) = Ok sd ->
  ToNumber (champ fields "montantHT") = Ok n ->
  ToString (or_empty (champ fields "prestation")) = Ok sp ->
  champs (JObj fields) content
  = Ok {| numDossier := normaliser sd;
          montantHT := if number_truthy n then n else PrimFloat.zero;
          prestation := trim sp;
          success := true;
          error := None;
          rawResponse := Some content |}.
Proof.
  intros Hd Hn Hp. unfold champs. rewrite !prop_champ, Hd, Hn, Hp. reflexivity.
Qed.




(** C10: when the located substring parses to an object and the members
    present convert (as strings and numbers do), the result is a success
    carrying the raw text, in which every member the object lacks is
    defaulted: numDossier and prestation to the empty string, montantHT to
    0. A success therefore does not guarantee non-empty or non-zero fields. *)
Theorem extraction_defaults :
  forall (env : Env) (transcription : JsVal) (w : World)
         (rest : list FetchOutcome) (content matched : string)
         (fields : list (string * JsVal)) (sd sp : string) (n : number),
    reponse_modele env transcription w rest content ->
    jsonMatch content = Some matched ->
    JSON_parse matched = Ok (JObj fields) ->
    ToString (or_empty (champ fields "numDossier")) = Ok sd ->
    ToNumber (champ fields "montantHT") = Ok n ->
    ToString (or_empty (champ fields "prestation")) = Ok sp ->
    exists (r : ExtractionResult) (w' : World),
      extraireInfosFacture env transcription w = (Ok r, w')
      /\ success r = true
      /\ rawResponse r = Some content
      /\ (own fields "numDossier" = None -> numDossier r = EmptyString)
      /\ (own fields "montantHT" = None -> montantHT r = PrimFloat.zero)
      /\ (own fields "prestation" = None -> prestation r = EmptyString).
Proof.
  intros env transcription w rest content matched fields sd sp n
         Hrep Hm Hparse Hd Hn Hp.
  rewrite (extraireInfosFacture_reply env transcription w rest content Hrep).
  unfold selon_contenu. rewrite Hm, Hparse.
  rewrite (champs_ok fields content sd sp n Hd Hn Hp).
  eexists; eexists. split; [reflexivity|].
  cbn [success rawResponse numDossier montantHT prestation].
  split; [reflexivity|]. split; [reflexivity|].
  split; [|split].
  - intros Habs. unfold champ in Hd. rewrite Habs in Hd. cbn in Hd.
    injection Hd as <-. reflexivity.
  - intros Habs. unfold champ in Hn. rewrite Habs in Hn. cbn in Hn.
    injection Hn as <-. reflexivity.
  - intros Habs. unfold champ in Hp. rewrite Habs in Hp. cbn in Hp.
    injection Hp as <-. reflexivity.
Qed.

Lemma extraction_defaults_witness :
  reponse_modele env_demo dictee (monde_reponse "{}") [] "{}"
  /\ JSON_parse "{}" = Ok (JObj [])
  /\ exists (r : ExtractionResult) (w' : World),
       extraireInfosFacture env_demo dictee (monde_reponse "{}") = (Ok r, w')
       /\ success r = true
       /\ rawResponse r = Some "{}"%string
       /\ (own [] "numDossier" = None -> numDossier r = EmptyString)
       /\ (own [] "montantHT" = None -> montantHT r = PrimFloat.zero)
       /\ (own [] "prestation" = None -> prestation r = EmptyString).
Proof.
  assert (H : reponse_modele env_demo dictee (monde_reponse "{}") [] "{}").
  { split; [reflexivity|]. split; [eexists; reflexivity|].
    eexists; eexists. split; [reflexivity|]. split; [reflexivity|].
    split; vm_compute; reflexivity. }
  split; [exact H|]. split; [reflexivity|].
  apply (extraction_defaults env_demo dictee (monde_reponse "{}") [] "{}" "{}" []
           EmptyString EmptyString PrimFloat.nan H);
    reflexivity.
Defined.

(** The reply [{}] evaluated: a success with the three defaults. *)
Example extraction_objet_vide :
  fst (extraireInfosFacture env_demo dictee (monde_reponse "{}"))
  = Ok {| numDossier := ""; montantHT := 0; prestation := ""; success := true;
          error := None; rawResponse := Some "{}"%string |}.
Proof. vm_compute. reflexivity. Qed.



(** The model text carrying a lower-case reference with blanks, evaluated. *)
Example extraction_normalisee :
  fst (extraireInfosFacture env_demo dictee
         (monde_reponse "{\'numDossier\': \' am0028 \', \'montantHT\': 150.5, \'prestation\': \' Bilan annuel \'}"))
  = Ok {| numDossier := "AM0028"; montantHT := 150.5; prestation := "Bilan annuel";
          success := true; error := None;
          rawResponse := Some (json_text "{'numDossier': ' am0028 ', 'montantHT': 150.5, 'prestation': ' Bilan annuel '}") |}.
Proof. vm_compute. reflexivity. Qed.

(** ** The extract action *)





(** The answer to that request, evaluated: the client on file is found. *)
Example extraction_trouvee :
  match fst (POST env_demo requete_extract monde_extraction) with
  | Ok {| status := 200; body := RExtraction true r trouve (Some c) None |} =>
      Some (numDossier r, trouve, Prisma.raisonSociale c)
  | _ => None
  end
  = Some ("AM0028"%string, true, "Dupont SARL"%string).
Proof. vm_compute. reflexivity. Qed.

(** ** Provider calls: attempts *)







(** * Further properties of the embedded code *)

(** ** A small logic of effects *)

Section Conserve.
Context {X : Type} (f : World -> X).

Lemma conserve_ret {A} (a : A) : conserve f (ret a).
Proof. intros w. reflexivity. Qed.

Lemma conserve_throw {A} (e : JsError) : conserve f (@throw A e).
Proof. intros w. reflexivity. Qed.

Lemma conserve_lift {A} (o : Outcome A) : conserve f (lift o).
Proof. intros w. reflexivity. Qed.

Lemma conserve_bind {A B} (c : M A) (k : A -> M B) :
  conserve f c -> (forall a, conserve f (k a)) -> conserve f (bind c k).
Proof.
  intros Hc Hk w. unfold bind. specialize (Hc w).
  destruct (c w) as [[a|e] w1]; cbn [snd] in *.
  - rewrite (Hk a w1). exact Hc.
  - exact Hc.
Qed.

Lemma conserve_try_catch {A} (c : M A) (h : JsError -> M A) :
  conserve f c -> (forall e, conserve f (h e)) -> conserve f (try_catch c h).
Proof.
  intros Hc Hh w. unfold try_catch. specialize (Hc w).
  destruct (c w) as [[a|e] w1]; cbn [snd] in *.
  - exact Hc.
  - rewrite (Hh e w1). exact Hc.
Qed.

End Conserve.

Section Journalise.
Context (P : Event -> Prop).

Lemma journalise_ret {A} (a : A) : journalise P (ret a).
Proof. intros w. exists []. split; [now rewrite app_nil_r | constructor]. Qed.

Lemma journalise_throw {A} (e : JsError) : journalise P (@throw A e).
Proof. intros w. exists []. split; [now rewrite app_nil_r | constructor]. Qed.

Lemma journalise_lift {A} (o : Outcome A) : journalise P (lift o).
Proof. intros w. exists []. split; [now rewrite app_nil_r | constructor]. Qed.

Lemma journalise_bind {A B} (c : M A) (k : A -> M B) :
  journalise P c -> (forall a, journalise P (k a)) -> journalise P (bind c k).
Proof.
  intros Hc Hk w. unfold bind. destruct (Hc w) as (evs & Hj & Hp).
  destruct (c w) as [[a|e] w1]; cbn [snd] in *.
  - destruct (Hk a w1) as (evs' & Hj' & Hp').
    exists (evs ++ evs'). split; [|now apply Forall_app].
    now rewrite Hj', Hj, app_assoc.
  - exists evs. now split.
Qed.

Lemma journalise_try_catch {A} (c : M A) (h : JsError -> M A) :
  journalise P c -> (forall e, journalise P (h e)) -> journalise P (try_catch c h).
Proof.
  intros Hc Hh w. unfold try_catch. destruct (Hc w) as (evs & Hj & Hp).
  destruct (c w) as [[a|e] w1]; cbn [snd] in *.
  - exists evs. now split.
  - destruct (Hh e w1) as (evs' & Hj' & Hp').
    exists (evs ++ evs'). split; [|now apply Forall_app].
    now rewrite Hj', Hj, app_assoc.
Qed.

Lemma journalise_log (ev : Event) : P ev -> journalise P (log ev).
Proof. intros H w. exists [ev]. split; [reflexivity | now constructor]. Qed.

End Journalise.

Lemma journalise_weaken {A} (P Q : Event -> Prop) (c : M A) :
  (forall ev, P ev -> Q ev) -> journalise P c -> journalise Q c.
Proof.
  intros HPQ Hc w. destruct (Hc w) as (evs & Hj & Hp).
  exists evs. split; [exact Hj|]. eapply Forall_impl; eauto.
Qed.

(** The primitives. *)

Lemma fetch_conserve_tables (u : string) (fmt : BodyFormat) : conserve tables (fetch u fmt).
Proof.
  intros w. unfold fetch. cbn [network record].
  destruct (network w) as [|[what|r] rest]; reflexivity.
Qed.

Lemma fetch_journalise (P : Event -> Prop) (u : string) (fmt : BodyFormat) :
  P (EvFetch u fmt) -> journalise P (fetch u fmt).
Proof.
  intros H w. exists [EvFetch u fmt]. split; [|now constructor].
  unfold fetch. cbn [network record].
  destruct (network w) as [|[what|r] rest]; reflexivity.
Qed.

Lemma client_findUnique_conserve_tables (key : string) :
  conserve tables (client_findUnique key).
Proof. intros w. reflexivity. Qed.

Lemma client_findUnique_journalise (P : Event -> Prop) (key : string) :
  P (EvClientFindUnique key) -> journalise P (client_findUnique key).
Proof. intros H w. exists [EvClientFindUnique key]. split; [reflexivity | now constructor]. Qed.

(** ** Normalisation of case references *)

Lemma upper_ascii_space (a : ascii) : is_space (upper_ascii a) = is_space a.
Proof. destruct a as [[] [] [] [] [] [] [] []]; reflexivity. Qed.

Lemma upper_ascii_idem (a : ascii) : upper_ascii (upper_ascii a) = upper_ascii a.
Proof. destruct a as [[] [] [] [] [] [] [] []]; reflexivity. Qed.

Lemma toUpperCase_idem (s : string) : toUpperCase (toUpperCase s) = toUpperCase s.
Proof.
  induction s as [|a r IH]; cbn [toUpperCase]; [reflexivity|].
  now rewrite upper_ascii_idem, IH.
Qed.

Lemma toUpperCase_trimStart (s : string) :
  trimStart (toUpperCase s) = toUpperCase (trimStart s).
Proof.
  induction s as [|a r IH]; cbn [toUpperCase trimStart]; [reflexivity|].
  rewrite upper_ascii_space. destruct (is_space a); [exact IH | reflexivity].
Qed.

Lemma toUpperCase_trimEnd (s : string) :
  trimEnd (toUpperCase s) = toUpperCase (trimEnd s).
Proof.
  induction s as [|a r IH]; cbn [toUpperCase trimEnd]; [reflexivity|].
  rewrite IH, upper_ascii_space.
  destruct (trimEnd r) as [|b t]; cbn [toUpperCase].
  - destruct (is_space a); reflexivity.
  - reflexivity.
Qed.

Lemma toUpperCase_trim (s : string) : trim (toUpperCase s) = toUpperCase (trim s).
Proof. unfold trim. now rewrite toUpperCase_trimStart, toUpperCase_trimEnd. Qed.

Lemma trimStart_net (s : string) : debut_net (trimStart s).
Proof.
  induction s as [|a r IH]; cbn [trimStart]; [exact I|].
  destruct (is_space a) eqn:E; [exact IH | exact E].
Qed.

Lemma trimStart_id (s : string) : debut_net s -> trimStart s = s.
Proof. destruct s as [|a r]; cbn; [reflexivity|]. now intros ->. Qed.

Lemma trimEnd_net (s : string) : debut_net s -> debut_net (trimEnd s).
Proof.
  destruct s as [|a r]; cbn [debut_net trimEnd]; [trivial|].
  intros E. destruct (trimEnd r); [rewrite E|]; exact E.
Qed.

Lemma trimEnd_idem (s : string) : trimEnd (trimEnd s) = trimEnd s.
Proof.
  induction s as [|a r IH]; cbn [trimEnd]; [reflexivity|].
  destruct (trimEnd r) as [|b t] eqn:E.
  - destruct (is_space a) eqn:Ea; cbn [trimEnd]; [reflexivity | now rewrite Ea].
  - cbn [trimEnd]. cbn [trimEnd] in IH. rewrite IH. reflexivity.
Qed.

Lemma trim_idem (s : string) : trim (trim s) = trim s.
Proof.
  unfold trim.
  rewrite (trimStart_id (trimEnd (trimStart s)))
    by (apply trimEnd_net, trimStart_net).
  apply trimEnd_idem.
Qed.

Lemma normaliser_idem (s : string) : normaliser (normaliser s) = normaliser s.
Proof.
  unfold normaliser.
  now rewrite toUpperCase_trim, trim_idem, <- toUpperCase_trim, toUpperCase_idem.
Qed.

(** ** The provider adapters never throw *)

Lemma number_truthy_not_nan (x : number) :
  number_truthy x = true -> PrimFloat.is_nan x = false.
Proof.
  unfold number_truthy, Prim2SF. destruct (PrimFloat.is_nan x); [discriminate | reflexivity].
Qed.

Lemma echec_bien_forme (m : string) (raw : option string) :
  resultat_bien_forme (echec m raw).
Proof. unfold resultat_bien_forme, echec; cbn. repeat split. now exists m. Qed.

Lemma champs_bien_forme (parsed : JsVal) (content : string) (r : ExtractionResult) :
  champs parsed content = Ok r -> resultat_bien_forme r.
Proof.
  unfold champs.
  destruct (prop parsed "numDossier") as [vd|]; [|discriminate].
  destruct (ToString (or_empty vd)) as [sd|]; [|discriminate].
  destruct (prop parsed "montantHT") as [vm|]; [|discriminate].
  destruct (ToNumber vm) as [n|]; [|discriminate].
  destruct (prop parsed "prestation") as [vp|]; [|discriminate].
  destruct (ToString (or_empty vp)) as [sp|]; [|discriminate].
  intros H. injection H as <-. unfold resultat_bien_forme; cbn.
  split; [reflexivity|]. split; [now exists content|].
  split; [apply normaliser_idem|]. split; [apply trim_idem|].
  destruct (number_truthy n) eqn:E; [now apply number_truthy_not_nan | reflexivity].
Qed.

Lemma selon_contenu_bien_forme (content : string) :
  resultat_bien_forme (selon_contenu content).
Proof.
  unfold selon_contenu.
  destruct (jsonMatch content) as [matched|]; [|apply echec_bien_forme].
  destruct (JSON_parse matched) as [parsed|e]; [|apply echec_bien_forme].
  destruct (champs parsed content) as [r|e] eqn:E; [|apply echec_bien_forme].
  exact (champs_bien_forme parsed content r E).
Qed.

Ltac conclure :=
  repeat split; try reflexivity; try discriminate; try (now left); try (now right).

(** [extraireInfosFacture] always returns a result, never throws: the
    result is well formed, the tables and the payment script are untouched,
    and at most one provider call is made (none without a key). *)
Theorem extraireInfosFacture_total :
  forall (env : Env) (transcription : JsVal) (w : World),
    exists (r : ExtractionResult) (w' : World),
      extraireInfosFacture env transcription w = (Ok r, w')
      /\ resultat_bien_forme r
      /\ tables w' = tables w
      /\ stripe w' = stripe w
      /\ (journal w' = journal w
          \/ journal w' = journal w ++ [EvFetch chat_url ChatCompletion])
      /\ (configured (OPENROUTER_API_KEY env) = false -> w' = w /\ success r = false).
Proof.
  intros env transcription w. unfold extraireInfosFacture.
  destruct (configured (OPENROUTER_API_KEY env)) eqn:Hkey; cbn [negb].
  2:{ eexists; eexists. split; [reflexivity|]. split; [apply echec_bien_forme|].
      conclure. }
  unfold try_catch, bind, lift.
  destruct (ToString transcription) as [s|e].
  2:{ eexists; eexists. split; [reflexivity|]. split; [apply echec_bien_forme|].
      conclure. }
  unfold fetch. cbn [network record].
  destruct w as [sq cl fa ne st jo]; cbn [network sequence clients factures stripe journal].
  destruct ne as [|[what|resp] rest].
  1,2: eexists; eexists; (split; [reflexivity|]); (split; [apply echec_bien_forme|]);
       conclure.
  destruct (ok resp); cbn [negb].
  2:{ eexists; eexists. split; [reflexivity|]. split; [apply echec_bien_forme|].
      conclure. }
  destruct (JSON_parse (text resp)) as [data|e].
  2:{ eexists; eexists. split; [reflexivity|]. split; [apply echec_bien_forme|].
      conclure. }
  destruct (contenu data) as [c|e].
  2:{ eexists; eexists. split; [reflexivity|]. split; [apply echec_bien_forme|].
      conclure. }
  destruct c as [| |b|n|content|items|fields];
    try (eexists; eexists; (split; [reflexivity|]); (split; [apply echec_bien_forme|]);
         conclure).
  pose proof (selon_contenu_bien_forme content) as Hbf. unfold selon_contenu in Hbf.
  destruct (jsonMatch content) as [matched|].
  2:{ eexists; eexists. split; [reflexivity|]. split; [exact Hbf|].
      conclure. }
  unfold throw.
  destruct (JSON_parse matched) as [parsed|e].
  2:{ eexists; eexists. split; [reflexivity|]. split; [exact Hbf|].
      conclure. }
  destruct (champs parsed content) as [r|e].
  - eexists; eexists. split; [reflexivity|]. split; [exact Hbf|].
    conclure.
  - eexists; eexists. split; [reflexivity|]. split; [exact Hbf|].
    conclure.
Qed.

(** [transcrireAudio] always returns a result, never throws: a failure
    carries a message and an empty text, a success carries the provider's
    text or the empty string; at most one provider call is made (none
    without a key) and the tables are untouched. *)
Theorem transcrireAudio_total :
  forall (env : Env) (b : Blob) (w : World),
    exists (r : TranscriptionResult) (w' : World),
      transcrireAudio env b w = (Ok r, w')
      /\ transcription_bien_formee r
      /\ tables w' = tables w
      /\ (journal w' = journal w
          \/ journal w' = journal w ++ [EvFetch transcriptions_url Base64Json])
      /\ (configured (OPENROUTER_API_KEY env) = false -> w' = w /\ t_success r = false).
Proof.
  intros env b w. unfold transcrireAudio.
  destruct (configured (OPENROUTER_API_KEY env)) eqn:Hkey; cbn [negb].
  2:{ eexists; eexists. split; [reflexivity|]. split.
      - unfold transcription_bien_formee; cbn. split; [eexists|]; reflexivity.
      - conclure. }
  unfold try_catch, bind, lift, fetch. cbn [network record].
  destruct w as [sq cl fa ne st jo]; cbn [network sequence clients factures stripe journal].
  assert (Hfail : forall m, transcription_bien_formee
            {| t_text := JStr EmptyString; t_success := false; t_error := Some m |}).
  { intros m. unfold transcription_bien_formee; cbn. split; [now exists m | reflexivity]. }
  destruct ne as [|[what|resp] rest].
  1,2: eexists; eexists; (split; [reflexivity|]); (split; [apply Hfail|]);
       conclure.
  destruct (ok resp); cbn [negb].
  2:{ eexists; eexists. split; [reflexivity|]. split; [apply Hfail|].
      conclure. }
  destruct (JSON_parse (text resp)) as [data|e].
  2:{ eexists; eexists. split; [reflexivity|]. split; [apply Hfail|].
      conclure. }
  destruct (prop data "text") as [t|e].
  2:{ eexists; eexists. split; [reflexivity|]. split; [apply Hfail|].
      conclure. }
  eexists; eexists. split; [reflexivity|]. split.
  - unfold transcription_bien_formee, or_empty; cbn. split; [reflexivity|].
    destruct (truthy t) eqn:E; [now left | now right].
  - conclure.
Qed.

(** ** The handler always answers *)

Section Retourne.
Context {A : Type} (Q : A -> Prop).

Lemma retourne_ret (a : A) : Q a -> retourne Q (ret a).
Proof. intros H w a' E. injection E as <-. exact H. Qed.

Lemma retourne_throw (e : JsError) : retourne Q (@throw A e).
Proof. intros w a E. discriminate E. Qed.

Lemma retourne_bind {B} (c : M B) (k : B -> M A) :
  (forall b, retourne Q (k b)) -> retourne Q (bind c k).
Proof.
  intros Hk w a. unfold bind. destruct (c w) as [[b|e] w1]; cbn [fst].
  - apply Hk.
  - discriminate.
Qed.

Lemma retourne_try_catch (c : M A) (h : JsError -> M A) :
  retourne Q c -> (forall e, retourne Q (h e)) -> retourne Q (try_catch c h).
Proof.
  intros Hc Hh w a. unfold try_catch. specialize (Hc w).
  destruct (c w) as [[b|e] w1]; cbn [fst] in *.
  - apply Hc.
  - apply Hh.
Qed.

End Retourne.

Ltac retourne_tac fin :=
  repeat first
    [ apply retourne_ret; solve [fin]
    | apply retourne_throw
    | apply retourne_bind; intros ?
    | match goal with
      | |- retourne _ (if ?b then _ else _) => destruct b
      | |- retourne _ (match ?x with _ => _ end) => destruct x
      end ].

Ltac statut_fin := unfold statut_connu; cbn; auto.

Lemma cas_transcription_statut (env : Env) (request : Request) :
  retourne statut_connu (cas_transcription env request).
Proof. unfold cas_transcription. retourne_tac statut_fin. Qed.

Lemma cas_extract_statut (env : Env) (body : JsVal) :
  retourne statut_connu (cas_extract env body).
Proof. unfold cas_extract. retourne_tac statut_fin. Qed.

Lemma cas_create_statut (env : Env) (body : JsVal) :
  retourne statut_connu (cas_create env body).
Proof. unfold cas_create. retourne_tac statut_fin. Qed.

(** Whatever the request, the environment and the world, [POST] returns a
    response (no exception escapes the handler) and its status is 200,
    400, 404 or 500. *)
Theorem POST_always_answers :
  forall (env : Env) (request : Request) (w : World),
    exists (resp : Response) (w' : World),
      POST env request w = (Ok resp, w') /\ statut_connu resp.
Proof.
  intros env request w.
  assert (H : retourne statut_connu (POST env request)).
  { unfold POST. apply retourne_try_catch.
    - destruct (includes _ _); [apply cas_transcription_statut|].
      apply retourne_bind; intros body. apply retourne_bind; intros action.
      destruct action; try (apply retourne_ret; statut_fin).
      destruct (String.eqb s "extract"); [apply cas_extract_statut|].
      destruct (String.eqb s "create"); [apply cas_create_statut|].
      apply retourne_ret; statut_fin.
    - intros e. apply retourne_ret; statut_fin. }
  specialize (H w).
  unfold POST, try_catch in *.
  match goal with
  | |- context [match ?c with (o, w') => _ end] => destruct c as [[resp|e] w1]
  end.
  - exists resp, w1. split; [reflexivity | now apply H].
  - eexists; eexists. split; [reflexivity|]. statut_fin.
Qed.

(** ** Error answers come before any effect *)

Lemma prudent_ret (resp : Response) : status resp <> 404 -> prudent (ret resp).
Proof.
  intros H w. cbn. split; [reflexivity|]. intros E. contradiction.
Qed.

Lemma prudent_throw (e : JsError) : prudent (throw e).
Proof. intros w. exact I. Qed.

Lemma prudent_bind_lift {A} (o : Outcome A) (k : A -> M Response) :
  (forall a, prudent (k a)) -> prudent (bind (lift o) k).
Proof.
  intros Hk w. unfold bind, lift. destruct o as [a|e]; [apply Hk | exact I].
Qed.

Lemma prudent_bind_effet {A} (c : M A) (k : A -> M Response) :
  (forall a, retourne ni_400_ni_404 (k a)) -> prudent (bind c k).
Proof.
  intros Hk w. unfold bind. destruct (c w) as [[a|e] w1]; [|exact I].
  specialize (Hk a w1). destruct (k a w1) as [[resp|e] w2]; [|exact I].
  destruct (Hk resp eq_refl) as [H400 H404].
  split; intros E; contradiction.
Qed.

Ltac ni_fin := unfold ni_400_ni_404; cbn; split; discriminate.

Lemma cas_transcription_prudent (env : Env) (request : Request) :
  prudent (cas_transcription env request).
Proof.
  unfold cas_transcription. apply prudent_bind_lift. intros formData.
  destruct (negb (form_truthy (form_get formData "audio")));
    [apply prudent_ret; discriminate|].
  destruct (negb (configured (OPENROUTER_API_KEY env)));
    [apply prudent_ret; discriminate|].
  destruct (form_get formData "audio") as [[s|b]|]; try apply prudent_throw.
  apply prudent_bind_effet. intros r1. retourne_tac ni_fin.
Qed.

Lemma cas_extract_prudent (env : Env) (body : JsVal) :
  prudent (cas_extract env body).
Proof.
  unfold cas_extract. apply prudent_bind_lift. intros transcription.
  destruct (negb (truthy transcription)); [apply prudent_ret; discriminate|].
  intros w. unfold bind.
  destruct (extraireInfosFacture_total env transcription w)
    as (r & w1 & Hrun & _ & _ & _ & _ & _).
  rewrite Hrun.
  destruct (success r && negb (String.eqb (numDossier r) EmptyString)).
  - unfold client_findUnique, ret. split; discriminate.
  - unfold ret. split; discriminate.
Qed.

Lemma cas_create_prudent (env : Env) (body : JsVal) :
  prudent (cas_create env body).
Proof.
  unfold cas_create.
  apply prudent_bind_lift; intros numDossier.
  apply prudent_bind_lift; intros montantHT.
  apply prudent_bind_lift; intros prestation.
  apply prudent_bind_lift; intros g.
  destruct (negb (truthy numDossier) || negb (truthy montantHT) || negb (truthy prestation));
    [apply prudent_ret; discriminate|].
  destruct numDossier as [| |b|n|nd|items|fields]; try apply prudent_throw.
  intros w. unfold bind at 1. unfold client_findUnique at 1.
  destruct (find _ (clients w)) as [c|].
  - match goal with
    | |- match ?k ?w1 with _ => _ end =>
        assert (H : retourne ni_400_ni_404 k) by (retourne_tac ni_fin);
        specialize (H w1); destruct (k w1) as [[resp|e] w2]; [|exact I];
        destruct (H resp eq_refl) as [H400 H404]; split; intros E; contradiction
    end.
  - unfold ret. split; [discriminate|]. intros _. eexists. reflexivity.
Qed.

(** A 400 answer is given in the world as it was found: no provider call,
    no database access, no journal entry; a 404 answer has made one client
    lookup and nothing else. This holds for every request. *)
Theorem POST_errors_before_effects :
  forall (env : Env) (request : Request) (w : World),
    exists (resp : Response) (w' : World),
      POST env request w = (Ok resp, w')
      /\ (status resp = 400 -> w' = w)
      /\ (status resp = 404 -> exists key, w' = record (EvClientFindUnique key) w).
Proof.
  intros env request w.
  assert (H : prudent
                (let contentType := match content_type request with
                                    | Some h => h
                                    | None => EmptyString
                                    end in
                 if includes contentType "multipart/form-data"
                 then cas_transcription env request
                 else
                   body <- lift (request_json request) ;;
                   action <- lift (prop body "action") ;;
                   match action with
                   | JStr a =>
                       if String.eqb a "extract" then cas_extract env body
                       else if String.eqb a "create" then cas_create env body
                       else ret (json_status (RError "Action non reconnue") 400)
                   | _ => ret (json_status (RError "Action non reconnue") 400)
                   end)).
  { cbv zeta. destruct (includes _ _); [apply cas_transcription_prudent|].
    apply prudent_bind_lift; intros body. apply prudent_bind_lift; intros action.
    destruct action; try (apply prudent_ret; discriminate).
    destruct (String.eqb s "extract"); [apply cas_extract_prudent|].
    destruct (String.eqb s "create"); [apply cas_create_prudent|].
    apply prudent_ret; discriminate. }
  specialize (H w). unfold POST, try_catch.
  match goal with
  | H : match ?c with _ => _ end |- _ => destruct c as [[resp|e] w1]
  end.
  - exists resp, w1. split; [reflexivity | exact H].
  - eexists; eexists. split; [reflexivity|]. unfold ret. cbn. split; discriminate.
Qed.

(** ** What a request can write *)

Ltac conserve_tac :=
  repeat first
    [ apply conserve_ret
    | apply conserve_throw
    | apply conserve_lift
    | apply fetch_conserve_tables
    | apply client_findUnique_conserve_tables
    | apply conserve_bind; [|intros ?]
    | apply conserve_try_catch; [|intros ?]
    | match goal with
      | |- conserve _ (if ?b then _ else _) => destruct b
      | |- conserve _ (match ?x with _ => _ end) => destruct x
      end ].

Lemma extraireInfosFacture_conserve_tables (env : Env) (transcription : JsVal) :
  conserve tables (extraireInfosFacture env transcription).
Proof. unfold extraireInfosFacture. conserve_tac. Qed.

Lemma cas_transcription_conserve_tables (env : Env) (request : Request) :
  conserve tables (cas_transcription env request).
Proof. unfold cas_transcription. conserve_tac. Qed.

Lemma cas_extract_conserve_tables (env : Env) (body : JsVal) :
  conserve tables (cas_extract env body).
Proof.
  unfold cas_extract.
  apply conserve_bind; [apply conserve_lift | intros transcription].
  destruct (negb (truthy transcription)); [apply conserve_ret|].
  apply conserve_bind; [apply extraireInfosFacture_conserve_tables | intros extraction].
  conserve_tac.
Qed.

Lemma conserve_tables_clients {A} (c : M A) : conserve tables c -> conserve clients c.
Proof.
  intros H w. specialize (H w). unfold tables in H. now injection H.
Qed.

Lemma getNextFactureNumber_conserve_clients (y : Z) :
  conserve clients (getNextFactureNumber y).
Proof. intros w. rewrite getNextFactureNumber_run. reflexivity. Qed.

Lemma creerLienPaiement_conserve_clients (num : string) :
  conserve clients (creerLienPaiement num).
Proof.
  intros w. unfold creerLienPaiement. cbn [stripe record].
  destruct (stripe w) as [|[e|r] rest]; reflexivity.
Qed.

Lemma facture_create_conserve_clients (f : Prisma.Facture) :
  conserve clients (facture_create f).
Proof. intros w. reflexivity. Qed.

Lemma cas_create_conserve_clients (env : Env) (body : JsVal) :
  conserve clients (cas_create env body).
Proof.
  unfold cas_create.
  repeat first
    [ apply conserve_ret
    | apply conserve_throw
    | apply conserve_lift
    | apply getNextFactureNumber_conserve_clients
    | apply creerLienPaiement_conserve_clients
    | apply facture_create_conserve_clients
    | apply conserve_tables_clients, client_findUnique_conserve_tables
    | apply conserve_bind; [|intros ?]
    | match goal with
      | |- conserve _ (if ?b then _ else _) => destruct b
      | |- conserve _ (match ?x with _ => _ end) => destruct x
      end ].
Qed.

(** No request changes the client directory, and the counter row and the
    invoice rows can only change on a JSON request whose action is create:
    transcription and extraction requests, unknown actions and malformed
    bodies leave the three tables as they were. *)
Theorem POST_writes_only_on_create :
  forall (env : Env) (request : Request) (w : World),
    clients (snd (POST env request w)) = clients w
    /\ (tables (snd (POST env request w)) <> tables w ->
        exists fields, requete_json request fields "create").
Proof.
  intros env request w. unfold POST.
  set (h := fun e : JsError => ret (json_status (RError (message e)) 500)).
  assert (Hh : forall X (f : World -> X) e, conserve f (h e))
    by (intros; apply conserve_ret).
  cbv zeta.
  destruct (includes _ "multipart/form-data") eqn:Hct.
  { split.
    - apply (conserve_try_catch clients); [|apply Hh].
      apply conserve_tables_clients, cas_transcription_conserve_tables.
    - intros Hneq. exfalso. apply Hneq.
      apply (conserve_try_catch tables); [|apply Hh].
      apply cas_transcription_conserve_tables. }
  destruct (request_json request) as [body|e] eqn:Hjson.
  2:{ split; [reflexivity|]. intros Hneq. now exfalso; apply Hneq. }
  cbv [bind lift].
  destruct body as [| |b|n|s|items|fields];
    try (split; [reflexivity|]; intros Hneq; now exfalso; apply Hneq).
  rewrite prop_champ.
  destruct (champ fields "action") as [| |b|n|a|items|fs] eqn:Hact;
    try (split; [reflexivity|]; intros Hneq; now exfalso; apply Hneq).
  destruct (String.eqb a "extract").
  { split.
    - apply (conserve_try_catch clients); [|apply Hh].
      apply conserve_tables_clients, cas_extract_conserve_tables.
    - intros Hneq. exfalso. apply Hneq.
      apply (conserve_try_catch tables); [|apply Hh].
      apply cas_extract_conserve_tables. }
  destruct (String.eqb a "create") eqn:Ha.
  2:{ split; [reflexivity|]. intros Hneq. now exfalso; apply Hneq. }
  apply String.eqb_eq in Ha. subst a. split.
  - apply (conserve_try_catch clients); [|apply Hh]. apply cas_create_conserve_clients.
  - intros _. exists fields. repeat split; assumption.
Qed.

Lemma POST_writes_only_on_create_witness :
  tables (snd (POST env_demo requete_creation monde_cabinet)) <> tables monde_cabinet
  /\ exists fields, requete_json requete_creation fields "create".
Proof.
  assert (H : tables (snd (POST env_demo requete_creation monde_cabinet))
              <> tables monde_cabinet) by (vm_compute; discriminate).
  split; [exact H|].
  exact (proj2 (POST_writes_only_on_create env_demo requete_creation monde_cabinet) H).
Defined.

(** ** The branch a request takes *)

Lemma POST_dispatch (env : Env) (request : Request) (w : World) :
  POST env request w = try_catch (cas_transcription env request) en_cas_d_erreur w
  \/ (exists fields, requete_json request fields "extract"
        /\ POST env request w = try_catch (cas_extract env (JObj fields)) en_cas_d_erreur w)
  \/ (exists fields, requete_json request fields "create"
        /\ POST env request w = try_catch (cas_create env (JObj fields)) en_cas_d_erreur w)
  \/ (exists m s, POST env request w = (Ok (json_status (RError m) s), w)
        /\ (s = 400 \/ s = 500)).
Proof.
  unfold POST. cbv zeta.
  destruct (includes _ "multipart/form-data") eqn:Hct; [now left|].
  right. unfold try_catch at 1. cbv [bind lift].
  destruct (request_json request) as [body|e] eqn:Hjson.
  2:{ right; right. eexists; eexists. split; [reflexivity | now right]. }
  destruct (prop body "action") as [action|e] eqn:Hprop.
  2:{ right; right. eexists; eexists. split; [reflexivity | now right]. }
  destruct body as [| |b|n|s|items|fields];
    try (cbn in Hprop; injection Hprop as <-; right; right; eexists; eexists;
         split; [reflexivity | now left]);
    try discriminate Hprop.
  rewrite prop_champ in Hprop. injection Hprop as <-.
  destruct (champ fields "action") as [| |b|n|a|items|fs] eqn:Hact;
    try (right; right; eexists; eexists; split; [reflexivity | now left]).
  destruct (String.eqb a "extract") eqn:He.
  { apply String.eqb_eq in He. subst a. left. exists fields.
    split; [repeat split; assumption|reflexivity]. }
  destruct (String.eqb a "create") eqn:Hc.
  { apply String.eqb_eq in Hc. subst a. right; left. exists fields.
    split; [repeat split; assumption|reflexivity]. }
  right; right; eexists; eexists; split; [reflexivity | now left].
Qed.

(** ** The order of effects *)

Ltac executer :=
  repeat (rewrite ?getNextFactureNumber_run;
          cbv beta iota zeta delta
            [bind lift ret throw try_catch fetch client_findUnique record
             facture_create creerLienPaiement en_cas_d_erreur
             apres_emission set_sequence];
          cbn [sequence clients factures network stripe journal snd fst];
          match goal with
          | |- context [match ?x with _ => _ end] =>
              lazymatch x with
              | context [match _ with _ => _ end] => fail
              | _ => destruct x
              end
          end).

Ltac suite_fin :=
  cbv beta iota zeta delta
            [bind lift ret throw try_catch fetch client_findUnique record
             facture_create creerLienPaiement en_cas_d_erreur];
  cbn [sequence clients factures network stripe journal snd fst];
  rewrite <- ?app_assoc; cbn [app];
  eexists; split; [try reflexivity; symmetry; apply app_nil_r|];
  unfold suite_permise, debut;
  first
    [ left; eexists; reflexivity
    | right; left; exists EmptyString; eexists; reflexivity
    | right; left; eexists; eexists; reflexivity
    | right; right; eexists; exists 0; left; eexists; reflexivity
    | right; right; eexists; eexists; left; eexists; reflexivity
    | right; right; eexists; eexists; right; reflexivity ].

Lemma cas_transcription_suite (env : Env) (request : Request) (w : World) :
  exists evs,
    journal (snd (try_catch (cas_transcription env request) en_cas_d_erreur w))
    = journal w ++ evs
    /\ suite_permise (fullYear env) evs.
Proof.
  unfold cas_transcription.
  executer; suite_fin.
Qed.

Lemma cas_extract_suite (env : Env) (body : JsVal) (w : World) :
  exists evs,
    journal (snd (try_catch (cas_extract env body) en_cas_d_erreur w))
    = journal w ++ evs
    /\ suite_permise (fullYear env) evs.
Proof.
  unfold cas_extract. cbv [try_catch bind lift].
  destruct (prop body "transcription") as [t|e]; [|suite_fin].
  destruct (negb (truthy t)); [suite_fin|].
  destruct (extraireInfosFacture_total env t w)
    as (r & w1 & Hrun & _ & _ & _ & Hj & _).
  rewrite Hrun.
  destruct (success r && negb (String.eqb (numDossier r) EmptyString)).
  - cbv [client_findUnique ret record]. cbn [journal snd].
    destruct Hj as [-> | ->]; suite_fin.
  - cbv [ret]. cbn [snd]. destruct Hj as [-> | ->]; suite_fin.
Qed.

Lemma cas_create_suite (env : Env) (body : JsVal) (w : World) :
  exists evs,
    journal (snd (try_catch (cas_create env body) en_cas_d_erreur w))
    = journal w ++ evs
    /\ suite_permise (fullYear env) evs.
Proof.
  unfold cas_create. cbv [try_catch bind lift].
  destruct (prop body "numDossier") as [numDossier|e]; [|suite_fin].
  destruct (prop body "montantHT") as [montantHT|e]; [|suite_fin].
  destruct (prop body "prestation") as [prestation|e]; [|suite_fin].
  destruct (prop body "genererStripe") as [g|e]; [|suite_fin].
  cbv zeta.
  destruct (negb (truthy numDossier) || negb (truthy montantHT) || negb (truthy prestation));
    [suite_fin|].
  destruct numDossier as [| |b|n|nd|items|fields]; try suite_fin.
  unfold client_findUnique at 1.
  destruct (find _ (clients w)) as [c|]; [|suite_fin].
  destruct (ToNumber montantHT) as [n|e]; [|suite_fin].
  rewrite getNextFactureNumber_run.
  unfold apres_emission, set_sequence.
  executer; suite_fin.
Qed.

(** Whatever the request, the journal only grows, and what one request adds
    is an initial segment of one of the sequences of [suite_permise]: the
    transcription branch makes at most two provider calls and touches no
    table; the extract branch calls the model before any lookup; a create
    request calls no model, looks the client up before the number is issued,
    and inserts the row last, under the number just issued. *)
Theorem POST_effect_order :
  forall (env : Env) (request : Request) (w : World),
    exists evs,
      journal (snd (POST env request w)) = journal w ++ evs
      /\ suite_permise (fullYear env) evs.
Proof.
  intros env request w.
  destruct (POST_dispatch env request w)
    as [E | [(fields & _ & E) | [(fields & _ & E) | (m & s & E & _)]]]; rewrite E.
  - apply cas_transcription_suite.
  - apply cas_extract_suite.
  - apply cas_create_suite.
  - exists []. split; [symmetry; apply app_nil_r|]. left. eexists. reflexivity.
Qed.

(** ** The invoice that is answered *)

Ltac sans_fin := unfold sans_facture; cbn; intros; discriminate.

Lemma cas_transcription_sans_facture (env : Env) (request : Request) :
  retourne sans_facture (cas_transcription env request).
Proof. unfold cas_transcription. retourne_tac sans_fin. Qed.

Lemma cas_extract_sans_facture (env : Env) (body : JsVal) :
  retourne sans_facture (cas_extract env body).
Proof. unfold cas_extract. retourne_tac sans_fin. Qed.

Lemma en_cas_d_erreur_sans_facture (e : JsError) :
  retourne sans_facture (en_cas_d_erreur e).
Proof. apply retourne_ret. sans_fin. Qed.

Ltac executer_eq :=
  repeat (rewrite ?getNextFactureNumber_run;
          cbv beta iota zeta delta
            [bind lift ret throw try_catch fetch client_findUnique record
             facture_create creerLienPaiement en_cas_d_erreur
             apres_emission set_sequence];
          cbn [sequence clients factures network stripe journal snd fst];
          match goal with
          | |- context [match ?x with _ => _ end] =>
              lazymatch x with
              | context [match _ with _ => _ end] => fail
              | _ => destruct x eqn:?
              end
          end).

Lemma non_vide (s : string) : String.eqb s EmptyString = false -> Some s <> Some EmptyString.
Proof. intros E H. injection H as ->. discriminate E. Qed.

Lemma cas_create_facture (env : Env) (body : JsVal) (w : World)
      (resp : Response) (w' : World) (f : Prisma.Facture) (msg : string) :
  try_catch (cas_create env body) en_cas_d_erreur w = (Ok resp, w') ->
  Route.body resp = RFacture f msg ->
  facture_conforme env w resp w' f msg.
Proof.
  unfold cas_create. cbv [try_catch bind lift].
  destruct (prop body "numDossier") as [numDossier|e];
    [|intros H1 H2; injection H1 as <- <-; discriminate H2].
  destruct (prop body "montantHT") as [montantHT|e];
    [|intros H1 H2; injection H1 as <- <-; discriminate H2].
  destruct (prop body "prestation") as [prestation|e];
    [|intros H1 H2; injection H1 as <- <-; discriminate H2].
  destruct (prop body "genererStripe") as [g|e];
    [|intros H1 H2; injection H1 as <- <-; discriminate H2].
  cbv zeta.
  destruct (negb (truthy numDossier) || negb (truthy montantHT) || negb (truthy prestation));
    [intros H1 H2; injection H1 as <- <-; discriminate H2|].
  destruct numDossier as [| |b|n|nd|items|fields];
    try (intros H1 H2; injection H1 as <- <-; discriminate H2).
  unfold client_findUnique at 1.
  destruct (find _ (clients w)) as [c|] eqn:Hfind;
    [|intros H1 H2; injection H1 as <- <-; discriminate H2].
  apply find_some in Hfind. destruct Hfind as [Hin _].
  destruct (ToNumber montantHT) as [n|e];
    [|intros H1 H2; injection H1 as <- <-; discriminate H2].
  rewrite getNextFactureNumber_run.
  replace (dernier_emis (fullYear env) (record (EvClientFindUnique (trim (toUpperCase nd))) w))
    with (dernier_emis (fullYear env) w) by reflexivity.
  unfold apres_emission, set_sequence.
  executer_eq; intros H1 H2; injection H1 as <- <-;
    try discriminate H2; injection H2 as <- <-;
    (repeat split; try reflexivity; try assumption; try discriminate;
     try (apply non_vide; assumption);
     try (exists n; repeat split; reflexivity)).
Qed.

(** Whenever [POST] answers with an invoice, that invoice satisfies
    [facture_conforme]: it is the row just appended, numbered one above the
    last number issued for the year, with the counter row left at that
    number. *)
Theorem POST_invoice_answer :
  forall (env : Env) (request : Request) (w : World)
         (resp : Response) (w' : World) (f : Prisma.Facture) (msg : string),
    POST env request w = (Ok resp, w') ->
    body resp = RFacture f msg ->
    facture_conforme env w resp w' f msg.
Proof.
  intros env request w resp w' f msg Hrun Hbody.
  destruct (POST_dispatch env request w)
    as [E | [(fields & _ & E) | [(fields & _ & E) | (m & s & E & _)]]];
    rewrite E in Hrun.
  - exfalso.
    assert (H : retourne sans_facture
                  (try_catch (cas_transcription env request) en_cas_d_erreur))
      by (apply retourne_try_catch;
          [apply cas_transcription_sans_facture | apply en_cas_d_erreur_sans_facture]).
    apply (H w resp (f_equal fst Hrun) f msg Hbody).
  - exfalso.
    assert (H : retourne sans_facture
                  (try_catch (cas_extract env (JObj fields)) en_cas_d_erreur))
      by (apply retourne_try_catch;
          [apply cas_extract_sans_facture | apply en_cas_d_erreur_sans_facture]).
    apply (H w resp (f_equal fst Hrun) f msg Hbody).
  - exact (cas_create_facture env (JObj fields) w resp w' f msg Hrun Hbody).
  - injection Hrun as <- <-. discriminate Hbody.
Qed.

Lemma POST_invoice_answer_witness :
  facture_conforme env_demo monde_cabinet
    (json (RFacture facture_cabinet "Facture FA-2026-0001 créée avec succès"))
    monde_apres_creation facture_cabinet "Facture FA-2026-0001 créée avec succès".
Proof.
  apply (POST_invoice_answer env_demo requete_creation monde_cabinet
           (json (RFacture facture_cabinet "Facture FA-2026-0001 créée avec succès"))
           monde_apres_creation facture_cabinet "Facture FA-2026-0001 créée avec succès").
  - vm_compute. reflexivity.
  - reflexivity.
Defined.

(** An answer that carries no invoice has left the invoice rows as they
    were: no row is written without being answered. *)
Theorem POST_row_only_with_invoice :
  forall (env : Env) (request : Request) (w : World) (resp : Response) (w' : World),
    POST env request w = (Ok resp, w') ->
    sans_facture resp ->
    factures w' = factures w.
Proof.
  intros env request w resp w' Hrun Hsans.
  destruct (POST_dispatch env request w)
    as [E | [(fields & _ & E) | [(fields & _ & E) | (m & s & E & _)]]];
    rewrite E in Hrun.
  - assert (H : conserve tables (try_catch (cas_transcription env request) en_cas_d_erreur))
      by (apply conserve_try_catch;
          [apply cas_transcription_conserve_tables | intros e; apply conserve_ret]).
    specialize (H w). rewrite Hrun in H. now injection H.
  - assert (H : conserve tables (try_catch (cas_extract env (JObj fields)) en_cas_d_erreur))
      by (apply conserve_try_catch;
          [apply cas_extract_conserve_tables | intros e; apply conserve_ret]).
    specialize (H w). rewrite Hrun in H. now injection H.
  - revert Hrun Hsans. unfold cas_create, sans_facture.
    executer; intros H1 H2; injection H1 as <- <-; try reflexivity;
      exfalso; eapply H2; reflexivity.
  - now injection Hrun as <- <-.
Qed.

Lemma POST_row_only_with_invoice_witness :
  factures (snd (POST env_demo requete_inconnue monde_cabinet)) = factures monde_cabinet.
Proof.
  apply (POST_row_only_with_invoice env_demo requete_inconnue monde_cabinet
           (json_status (RError "Dossier zz9999 non trouvé dans la base") 404)).
  - vm_compute. reflexivity.
  - intros f msg. discriminate.
Defined.

(** ** The payment step of a valid create request *)

Lemma creation_valide_run (env : Env) (request : Request) (fields : list (string * JsVal))
      (w : World) (nd p : string) (n : number) (c : Prisma.Client) :
  creation_valide request fields w nd p n c ->
  POST env request w
  = try_catch
      (lien <-
         (if truthy (genererStripe_de fields) && configured (STRIPE_SECRET_KEY env) then
            stripeResult <- creerLienPaiement (numeroComplet (numero_suivant env w)) ;;
            if stripe_success stripeResult then
              ret (match url stripeResult with
                   | Some u => if String.eqb u EmptyString then None else Some u
                   | None => None
                   end,
                   match paymentLinkId stripeResult with
                   | Some i => if String.eqb i EmptyString then None else Some i
                   | None => None
                   end)
            else ret (None, None)
          else ret (None, None)) ;;
       facture <- facture_create (facture_de (numero_suivant env w) p n lien c) ;;
       ret (json (RFacture facture (message_creation (numero_suivant env w)))))
      en_cas_d_erreur
      (apres_emission (fullYear env) (dernier_emis (fullYear env) w + 1)
         (record (EvClientFindUnique (normaliser nd)) w)).
Proof.
  intros (Hreq & Hnd & Tnd & Tm & Hn & Hp & Tp & Hfind).
  rewrite (POST_create env request fields w Hreq). unfold try_catch.
  rewrite (cas_create_found env fields w nd p n c Hnd Tnd Tm Hn Hp Tp Hfind).
  reflexivity.
Qed.

(** The number is issued before the payment link is requested and outside
    any enclosing transaction: when the payment-link call raises an
    exception, the answer is a 500 with its message, no invoice row is
    written, and the counter row keeps the number, so that the next call
    issues the following one and the number is skipped. *)
Theorem create_payment_exception_skips_number :
  forall (env : Env) (request : Request) (fields : list (string * JsVal)) (w : World)
         (nd p : string) (n : number) (c : Prisma.Client)
         (e : JsError) (rest : list StripeOutcome),
    creation_valide request fields w nd p n c ->
    truthy (genererStripe_de fields) = true ->
    configured (STRIPE_SECRET_KEY env) = true ->
    stripe w = StripeRejects e :: rest ->
    exists w' : World,
      POST env request w = (Ok (json_status (RError (message e)) 500), w')
      /\ factures w' = factures w
      /\ sequence w'
         = Some {| Prisma.dernierNumero := dernier_emis (fullYear env) w + 1;
                   Prisma.annee := fullYear env |}
      /\ numeroSequentiel (numero_suivant env w')
         = numeroSequentiel (numero_suivant env w) + 1.
Proof.
  intros env request fields w nd p n c e rest Hval Tg Tkey Hstripe.
  rewrite (creation_valide_run env request fields w nd p n c Hval).
  rewrite Tg, Tkey. cbn [andb].
  unfold try_catch, bind, creerLienPaiement.
  cbn [stripe record apres_emission set_sequence sequence clients factures network journal].
  rewrite Hstripe.
  eexists. split; [reflexivity|].
  cbn [factures sequence]. repeat split.
  unfold numero_suivant, numero_pour, dernier_emis.
  cbn [numeroSequentiel sequence Prisma.annee Prisma.dernierNumero].
  rewrite Z.eqb_refl. reflexivity.
Qed.

Lemma create_payment_exception_skips_number_witness :
  exists w' : World,
    POST env_demo requete_creation monde_stripe_en_panne
    = (Ok (json_status (RError "connect ETIMEDOUT") 500), w')
    /\ factures w' = factures monde_stripe_en_panne
    /\ sequence w' = Some {| Prisma.dernierNumero := 1; Prisma.annee := 2026 |}
    /\ numeroSequentiel (numero_suivant env_demo w') = 2.
Proof.
  apply (create_payment_exception_skips_number env_demo requete_creation champs_creation
           monde_stripe_en_panne " am0028 " "Bilan annuel" 100 dupont
           (FetchError "connect ETIMEDOUT") []).
  - repeat split; vm_compute; reflexivity.
  - reflexivity.
  - reflexivity.
  - reflexivity.
Defined.

(** When the payment-link call succeeds with a link and an id, both are
    stored on the row and answered, and the journal shows the four effects
    in order. *)
Theorem create_stores_payment_link :
  forall (env : Env) (request : Request) (fields : list (string * JsVal)) (w : World)
         (nd p : string) (n : number) (c : Prisma.Client)
         (r : StripeResult) (rest : list StripeOutcome) (u i : string),
    creation_valide request fields w nd p n c ->
    truthy (genererStripe_de fields) = true ->
    configured (STRIPE_SECRET_KEY env) = true ->
    stripe w = StripeResolves r :: rest ->
    stripe_success r = true ->
    url r = Some u -> u <> EmptyString ->
    paymentLinkId r = Some i -> i <> EmptyString ->
    exists w' : World,
      POST env request w
      = (Ok (json (RFacture (facture_de (numero_suivant env w) p n (Some u, Some i) c)
                     (message_creation (numero_suivant env w)))),
         w')
      /\ factures w'
         = factures w ++ [facture_de (numero_suivant env w) p n (Some u, Some i) c]
      /\ stripe w' = rest
      /\ journal w'
         = journal w ++ [EvClientFindUnique (normaliser nd);
                         EvTransaction (numeroSequentiel (numero_suivant env w));
                         EvCreerLienPaiement (numeroComplet (numero_suivant env w));
                         EvFactureCreate (numeroComplet (numero_suivant env w))].
Proof.
  intros env request fields w nd p n c r rest u i Hval Tg Tkey Hstripe Hok Hu Hu0 Hi Hi0.
  rewrite (creation_valide_run env request fields w nd p n c Hval).
  rewrite Tg, Tkey. cbn [andb].
  unfold try_catch, bind, creerLienPaiement.
  cbn [stripe record apres_emission set_sequence sequence clients factures network journal].
  rewrite Hstripe, Hok. unfold ret. rewrite Hu, Hi.
  apply String.eqb_neq in Hu0, Hi0. rewrite Hu0, Hi0.
  unfold facture_create.
  eexists. split; [reflexivity|].
  cbn [factures stripe journal record sequence clients network facture_de
       Prisma.numeroComplet].
  repeat split.
  rewrite <- !app_assoc. reflexivity.
Qed.

Lemma create_stores_payment_link_witness :
  exists w' : World,
    POST env_demo requete_creation monde_stripe
    = (Ok (json (RFacture
                   (facture_de (numero_suivant env_demo monde_stripe) "Bilan annuel" 100
                      (Some "https://buy.stripe.com/test_1"%string, Some "plink_1"%string)
                      dupont)
                   (message_creation (numero_suivant env_demo monde_stripe)))),
       w')
    /\ factures w'
       = factures monde_stripe
         ++ [facture_de (numero_suivant env_demo monde_stripe) "Bilan annuel" 100
               (Some "https://buy.stripe.com/test_1"%string, Some "plink_1"%string) dupont]
    /\ stripe w' = []
    /\ journal w'
       = journal monde_stripe
         ++ [EvClientFindUnique (normaliser " am0028 ");
             EvTransaction (numeroSequentiel (numero_suivant env_demo monde_stripe));
             EvCreerLienPaiement (numeroComplet (numero_suivant env_demo monde_stripe));
             EvFactureCreate (numeroComplet (numero_suivant env_demo monde_stripe))].
Proof.
  apply (create_stores_payment_link env_demo requete_creation champs_creation
           monde_stripe " am0028 " "Bilan annuel" 100 dupont lien_stripe []
           "https://buy.stripe.com/test_1" "plink_1").
  - repeat split; vm_compute; reflexivity.
  - reflexivity.
  - reflexivity.
  - reflexivity.
  - reflexivity.
  - reflexivity.
  - discriminate.
  - reflexivity.
  - discriminate.
Defined.

(** When no payment link is requested ([genererStripe] present and falsy)
    or the provider key is not configured, the payment provider is not
    called at all: its script is untouched, the journal shows the lookup,
    the numbering and the insertion only, and the row has no link. *)
Theorem create_without_payment_call :
  forall (env : Env) (request : Request) (fields : list (string * JsVal)) (w : World)
         (nd p : string) (n : number) (c : Prisma.Client),
    creation_valide request fields w nd p n c ->
    truthy (genererStripe_de fields) && configured (STRIPE_SECRET_KEY env) = false ->
    exists w' : World,
      POST env request w
      = (Ok (json (RFacture (facture_de (numero_suivant env w) p n (None, None) c)
                     (message_creation (numero_suivant env w)))),
         w')
      /\ factures w'
         = factures w ++ [facture_de (numero_suivant env w) p n (None, None) c]
      /\ stripe w' = stripe w
      /\ journal w'
         = journal w ++ [EvClientFindUnique (normaliser nd);
                         EvTransaction (numeroSequentiel (numero_suivant env w));
                         EvFactureCreate (numeroComplet (numero_suivant env w))].
Proof.
  intros env request fields w nd p n c Hval Hno.
  rewrite (creation_valide_run env request fields w nd p n c Hval).
  rewrite Hno.
  unfold try_catch, bind, ret, facture_create.
  eexists. split; [reflexivity|].
  cbn [factures stripe journal record sequence clients network facture_de
       Prisma.numeroComplet apres_emission set_sequence].
  repeat split.
  rewrite <- !app_assoc. reflexivity.
Qed.

Lemma create_without_payment_call_witness :
  exists w' : World,
    POST env_sans_stripe requete_creation monde_cabinet
    = (Ok (json (RFacture
                   (facture_de (numero_suivant env_sans_stripe monde_cabinet)
                      "Bilan annuel" 100 (None, None) dupont)
                   (message_creation (numero_suivant env_sans_stripe monde_cabinet)))),
       w')
    /\ factures w'
       = factures monde_cabinet
         ++ [facture_de (numero_suivant env_sans_stripe monde_cabinet)
               "Bilan annuel" 100 (None, None) dupont]
    /\ stripe w' = stripe monde_cabinet
    /\ journal w'
       = journal monde_cabinet
         ++ [EvClientFindUnique (normaliser " am0028 ");
             EvTransaction (numeroSequentiel (numero_suivant env_sans_stripe monde_cabinet));
             EvFactureCreate (numeroComplet (numero_suivant env_sans_stripe monde_cabinet))].
Proof.
  apply (create_without_payment_call env_sans_stripe requete_creation champs_creation
           monde_cabinet " am0028 " "Bilan annuel" 100 dupont).
  - repeat split; vm_compute; reflexivity.
  - reflexivity.
Defined.

(** ** From the extraction to the creation *)

Ltac sans_client_fin := unfold sans_client; cbn; intros; discriminate.

Lemma cas_transcription_sans_client (env : Env) (request : Request) :
  retourne sans_client (cas_transcription env request).
Proof. unfold cas_transcription. retourne_tac sans_client_fin. Qed.

Lemma cas_create_sans_client (env : Env) (body : JsVal) :
  retourne sans_client (cas_create env body).
Proof. unfold cas_create. retourne_tac sans_client_fin. Qed.

Lemma extract_found (env : Env) (request : Request) (w : World)
      (resp : Response) (w' : World)
      (s : bool) (r : ExtractionResult) (c : Prisma.Client) (err : option string) :
  POST env request w = (Ok resp, w') ->
  body resp = RExtraction s r true (Some c) err ->
  truthy (JStr (numDossier r)) = true
  /\ normaliser (numDossier r) = numDossier r
  /\ find (fun c => String.eqb (Prisma.numDossier c) (numDossier r)) (clients w) = Some c.
Proof.
  intros Hrun Hbody.
  destruct (POST_dispatch env request w)
    as [E | [(fields & _ & E) | [(fields & _ & E) | (m & st & E & _)]]];
    rewrite E in Hrun.
  - exfalso.
    assert (H : retourne sans_client
                  (try_catch (cas_transcription env request) en_cas_d_erreur))
      by (apply retourne_try_catch;
          [apply cas_transcription_sans_client | intros e; apply retourne_ret; sans_client_fin]).
    apply (H w resp (f_equal fst Hrun) s r c err Hbody).
  - revert Hrun. unfold cas_extract. cbv [try_catch bind lift].
    destruct (prop (JObj fields) "transcription") as [t|e];
      [|intros H; injection H as <- <-; discriminate Hbody].
    destruct (negb (truthy t)); [intros H; injection H as <- <-; discriminate Hbody|].
    destruct (extraireInfosFacture_total env t w)
      as (r0 & w1 & Hrun & Hbf & Htab & _).
    rewrite Hrun.
    destruct (success r0 && negb (String.eqb (numDossier r0) EmptyString)) eqn:Hs.
    + unfold client_findUnique, ret. intros H. injection H as <- <-.
      cbn in Hbody. injection Hbody as _ <- Hc Hfind _.
      apply andb_true_iff in Hs. destruct Hs as [Hs Hne].
      unfold resultat_bien_forme in Hbf. rewrite Hs in Hbf.
      destruct Hbf as (_ & _ & Hnorm & _).
      assert (Hcl : clients w1 = clients w) by (unfold tables in Htab; now injection Htab).
      rewrite Hcl in Hfind.
      repeat split; assumption.
    + unfold ret. intros H. injection H as <- <-. discriminate Hbody.
  - exfalso.
    assert (H : retourne sans_client
                  (try_catch (cas_create env (JObj fields)) en_cas_d_erreur))
      by (apply retourne_try_catch;
          [apply cas_create_sans_client | intros e; apply retourne_ret; sans_client_fin]).
    apply (H w resp (f_equal fst Hrun) s r c err Hbody).
  - injection Hrun as <- <-. discriminate Hbody.
Qed.

(** The reference an extract request matched is accepted as it is by a
    create request: with the same directory, a create request made with the
    extracted reference looks the client up under that very reference, is
    answered neither 400 nor 404, and any invoice it answers is for the
    client the extraction reported. *)
Theorem extract_then_create_same_client :
  forall (env : Env) (request : Request) (w : World) (resp : Response) (w' : World)
         (s : bool) (r : ExtractionResult) (c : Prisma.Client) (err : option string)
         (env2 : Env) (request2 : Request) (fields : list (string * JsVal)) (w2 : World)
         (p : string) (n : number),
    POST env request w = (Ok resp, w') ->
    body resp = RExtraction s r true (Some c) err ->
    clients w2 = clients w ->
    requete_json request2 fields "create" ->
    champ fields "numDossier" = JStr (numDossier r) ->
    truthy (champ fields "montantHT") = true ->
    ToNumber (champ fields "montantHT") = Ok n ->
    champ fields "prestation" = JStr p ->
    truthy (JStr p) = true ->
    exists (resp2 : Response) (w2' : World) (evs : list Event),
      POST env2 request2 w2 = (Ok resp2, w2')
      /\ status resp2 <> 400
      /\ status resp2 <> 404
      /\ (forall f msg, body resp2 = RFacture f msg -> Prisma.client f = c)
      /\ journal w2' = journal w2 ++ EvClientFindUnique (numDossier r) :: evs.
Proof.
  intros env request w resp w' s r c err env2 request2 fields w2 p n
         Hrun Hbody Hcl Hreq Hnd Tm Hn Hp Tp.
  destruct (extract_found env request w resp w' s r c err Hrun Hbody)
    as (Tnd & Hnorm & Hfind).
  assert (Hval : creation_valide request2 fields w2 (numDossier r) p n c).
  { repeat split; try assumption; try apply Hreq.
    rewrite Hnorm, Hcl. exact Hfind. }
  rewrite (creation_valide_run env2 request2 fields w2 (numDossier r) p n c Hval).
  rewrite Hnorm.
  executer; rewrite <- ?app_assoc; cbn [app];
    eexists; eexists; eexists;
    (split; [reflexivity|]);
    (split; [discriminate|]);
    (split; [discriminate|]);
    (split; [|cbn [journal snd]; rewrite <- ?app_assoc; reflexivity]);
    intros f msg H; try discriminate H; injection H as <- _; reflexivity.
Qed.

Lemma extract_then_create_same_client_witness :
  exists (resp2 : Response) (w2' : World) (evs : list Event),
    POST env_demo requete_creation_extraite monde_cabinet = (Ok resp2, w2')
    /\ status resp2 <> 400
    /\ status resp2 <> 404
    /\ (forall f msg, body resp2 = RFacture f msg -> Prisma.client f = dupont)
    /\ journal w2' = journal monde_cabinet ++ EvClientFindUnique "AM0028" :: evs.
Proof.
  apply (extract_then_create_same_client env_demo requete_extract monde_extraction
           (json (RExtraction true extraction_cabinet true (Some dupont) None))
           (snd (POST env_demo requete_extract monde_extraction))
           true extraction_cabinet dupont None
           env_demo requete_creation_extraite champs_creation_extraite monde_cabinet
           "Bilan annuel" 100).
  - vm_compute. reflexivity.
  - reflexivity.
  - reflexivity.
  - repeat split; vm_compute; reflexivity.
  - reflexivity.
  - reflexivity.
  - vm_compute. reflexivity.
  - reflexivity.
  - reflexivity.
Defined.

(** ** The full number identifies the invoice *)

Lemma Z_to_string_uint (n : Z) :
  0 <= n ->
  exists d, Z_to_string n = NilEmpty.string_of_uint d /\ Z.of_uint d = n.
Proof.
  intros Hn. unfold Z_to_string.
  destruct n as [|p|p]; [| |lia].
  - exists (Decimal.D0 Decimal.Nil). split; reflexivity.
  - exists (Pos.to_uint p). split.
    + cbn. unfold NilZero.string_of_uint.
      destruct (Pos.to_uint p) eqn:E; try reflexivity.
      exfalso. exact (Unsigned.to_uint_nonnil p E).
    + unfold Z.of_uint. now rewrite DecimalPos.Unsigned.of_to.
Qed.

Lemma string_of_uint_inj (d d' : Decimal.uint) :
  NilEmpty.string_of_uint d = NilEmpty.string_of_uint d' -> d = d'.
Proof.
  intros H. apply (f_equal NilEmpty.uint_of_string) in H.
  rewrite !NilEmpty.usu in H. now injection H.
Qed.

Lemma padStart_iter (s : string) (k : nat) (c : ascii) :
  exists j, padStart s k c = Nat.iter j (String c) s.
Proof.
  unfold padStart. exists (k - String.length s)%nat.
  induction (k - String.length s)%nat as [|j IH]; [reflexivity|].
  rewrite Nat.iter_succ. now rewrite IH.
Qed.

Lemma string_of_uint_iter_D0 (j : nat) (d : Decimal.uint) :
  Nat.iter j (String "0") (NilEmpty.string_of_uint d)
  = NilEmpty.string_of_uint (Nat.iter j Decimal.D0 d).
Proof.
  induction j as [|j IH]; [reflexivity|].
  rewrite !Nat.iter_succ, IH. reflexivity.
Qed.

Lemma of_uint_iter_D0_head (j : nat) (d : Decimal.uint) :
  Z.of_uint (Nat.iter j Decimal.D0 d) = Z.of_uint d.
Proof.
  induction j as [|j IH]; [reflexivity|].
  rewrite Nat.iter_succ. exact IH.
Qed.

Lemma padStart_Z_to_string_inj (n n' : Z) (k : nat) :
  0 <= n -> 0 <= n' ->
  padStart (Z_to_string n) k "0" = padStart (Z_to_string n') k "0" -> n = n'.
Proof.
  intros Hn Hn' H.
  destruct (Z_to_string_uint n Hn) as (d & Ed & Vd).
  destruct (Z_to_string_uint n' Hn') as (d' & Ed' & Vd').
  destruct (padStart_iter (Z_to_string n) k "0") as (j & Ej).
  destruct (padStart_iter (Z_to_string n') k "0") as (j' & Ej').
  rewrite Ej, Ej', Ed, Ed', !string_of_uint_iter_D0 in H.
  apply string_of_uint_inj in H.
  apply (f_equal Z.of_uint) in H. rewrite !of_uint_iter_D0_head in H. congruence.
Qed.

Lemma split_at_dash (d d' : Decimal.uint) (p p' : string) :
  (NilEmpty.string_of_uint d ++ String "-" p)%string
  = (NilEmpty.string_of_uint d' ++ String "-" p')%string ->
  d = d' /\ p = p'.
Proof.
  revert d'. induction d; destruct d'; cbn; intros H;
    try discriminate H; injection H as H;
    try (destruct (IHd _ H) as [-> ->]; now split).
  now split.
Qed.

Lemma numero_pour_inj (y y' n n' : Z) :
  0 <= y -> 0 <= y' -> 0 <= n -> 0 <= n' ->
  numeroComplet (numero_pour y n) = numeroComplet (numero_pour y' n') ->
  y = y' /\ n = n'.
Proof.
  intros Hy Hy' Hn Hn'. unfold numero_pour. cbn [numeroComplet].
  destruct (Z_to_string_uint y Hy) as (d & Ed & Vd).
  destruct (Z_to_string_uint y' Hy') as (d' & Ed' & Vd').
  rewrite Ed, Ed'. cbn [append]. intros H. injection H as H.
  rewrite !append_assoc in H. cbn [append] in H.
  apply split_at_dash in H. destruct H as [-> H].
  split; [congruence|].
  now apply (padStart_Z_to_string_inj n n' 4).
Qed.

(** Two numbers issued by [getNextFactureNumber] with the same full text
    were issued for the same year with the same sequence number: padding to
    four digits never truncates (a number above 9999 is written with all its
    digits) and the year and the number can be read back from the text. The
    years and the stored counters are not negative. *)
Theorem numeroComplet_identifies :
  forall (y1 y2 : Z) (w1 w2 : World) (r1 r2 : NumeroFacture) (w1' w2' : World),
    getNextFactureNumber y1 w1 = (Ok r1, w1') ->
    getNextFactureNumber y2 w2 = (Ok r2, w2') ->
    0 <= y1 -> 0 <= y2 ->
    0 <= dernier_emis y1 w1 -> 0 <= dernier_emis y2 w2 ->
    numeroComplet r1 = numeroComplet r2 ->
    y1 = y2 /\ numeroSequentiel r1 = numeroSequentiel r2.
Proof.
  intros y1 y2 w1 w2 r1 r2 w1' w2' H1 H2 Hy1 Hy2 Hd1 Hd2 H.
  rewrite getNextFactureNumber_run in H1, H2.
  injection H1 as <- _. injection H2 as <- _.
  cbn [numero_pour numeroSequentiel].
  apply numero_pour_inj in H; try lia. 
Qed.

Lemma numeroComplet_identifies_witness :
  2025 = 2025 /\ numeroSequentiel (numero_pour 2025 42) = numeroSequentiel (numero_pour 2025 42).
Proof.
  apply (numeroComplet_identifies 2025 2025 monde_2025 monde_2025
           (numero_pour 2025 42) (numero_pour 2025 42)
           (apres_emission 2025 42 monde_2025) (apres_emission 2025 42 monde_2025)).
  - vm_compute. reflexivity.
  - vm_compute. reflexivity.
  - lia.
  - lia.
  - vm_compute. discriminate.
  - vm_compute. discriminate.
  - reflexivity.
Defined.

Lemma appels_annees_run (annees : list Z) :
  forall w,
    StronglySorted Z.le annees ->
    compteur_coherent annees w ->
    exists (paires : list (Z * Z)) (w' : World),
      appels_annees annees w
      = (Ok (map (fun yn => numero_pour (fst yn) (snd yn)) paires), w')
      /\ map fst paires = annees
      /\ NoDup paires
      /\ Forall (borne w) paires.
Proof.
  induction annees as [|y ys IH]; intros w Hsorted Hcoh.
  - exists [], w. repeat split; constructor.
  - cbn [appels_annees]. unfold bind at 1. rewrite getNextFactureNumber_run.
    set (k := dernier_emis y w + 1).
    set (w1 := apres_emission y k w).
    assert (Hk : 0 < k).
    { unfold k, dernier_emis. unfold compteur_coherent in Hcoh.
      destruct (sequence w) as [s|]; [|lia].
      destruct (Prisma.annee s =? y); lia. }
    apply StronglySorted_inv in Hsorted. destruct Hsorted as [Hsorted Hle].
    assert (Hcoh1 : compteur_coherent ys w1).
    { unfold compteur_coherent, w1, apres_emission, set_sequence, record.
      cbn [sequence Prisma.dernierNumero Prisma.annee]. split; [lia | exact Hle]. }
    destruct (IH w1 Hsorted Hcoh1) as (paires & w' & Hrun & Hmap & Hnd & Hb).
    exists ((y, k) :: paires), w'.
    unfold bind. rewrite Hrun. cbn [map fst snd]. unfold ret.
    split; [reflexivity|]. split; [now rewrite Hmap|]. split.
    + constructor; [|exact Hnd].
      intros Hin. rewrite Forall_forall in Hb. specialize (Hb _ Hin).
      destruct Hb as [_ Hb]. unfold w1, apres_emission, set_sequence, record in Hb.
      cbn [sequence Prisma.dernierNumero Prisma.annee fst snd] in Hb.
      specialize (Hb eq_refl). lia.
    + constructor.
      * split; [exact Hk|]. cbn [fst snd].
        unfold k, dernier_emis. destruct (sequence w) as [s|]; [|exact I].
        intros ->. rewrite Z.eqb_refl. lia.
      * rewrite Forall_forall in *. intros [y' n'] Hin.
        destruct (Hb _ Hin) as [Hpos Hb1]. split; [exact Hpos|].
        unfold w1, apres_emission, set_sequence, record in Hb1.
        cbn [sequence Prisma.dernierNumero Prisma.annee fst snd] in *.
        unfold compteur_coherent in Hcoh.
        destruct (sequence w) as [s|] eqn:Hs; [|exact I].
        intros Hy'. destruct Hcoh as [H0 Hall].
        apply Forall_inv in Hall as Hsy.
        assert (Hyy' : y <= y').
        { assert (Hin' : In y' ys) by (rewrite <- Hmap; apply (in_map fst _ _ Hin)).
          exact (Hle _ Hin'). }
        assert (E : y' = y) by lia. specialize (Hb1 E).
        unfold k, dernier_emis in Hb1. rewrite Hs in Hb1.
        assert (Es : Prisma.annee s = y) by lia.
        rewrite Es, Z.eqb_refl in Hb1. lia.
Qed.

(** As long as the clock does not go back (the years of successive calls do
    not decrease, and none is before the year of the counter row), the full
    numbers of the invoices issued are pairwise distinct, across the changes
    of year as well as within a year. *)
Theorem invoice_numbers_never_repeat :
  forall (annees : list Z) (w : World),
    StronglySorted Z.le annees ->
    Forall (fun y => 0 <= y) annees ->
    compteur_coherent annees w ->
    exists (l : list NumeroFacture) (w' : World),
      appels_annees annees w = (Ok l, w')
      /\ List.length l = List.length annees
      /\ NoDup (map numeroComplet l).
Proof.
  intros annees w Hsorted Hpos Hcoh.
  destruct (appels_annees_run annees w Hsorted Hcoh)
    as (paires & w' & Hrun & Hmap & Hnd & Hb).
  eexists; eexists. split; [exact Hrun|]. split.
  - rewrite List.length_map. rewrite <- Hmap. now rewrite List.length_map.
  - rewrite map_map. apply NoDup_map_NoDup_ForallPairs; [|exact Hnd].
    intros [y n] [y' n'] Hin Hin' H. cbn [fst snd] in H.
    rewrite Forall_forall in Hb, Hpos.
    assert (Hy : 0 <= y) by (apply Hpos; rewrite <- Hmap; apply (in_map fst _ _ Hin)).
    assert (Hy' : 0 <= y') by (apply Hpos; rewrite <- Hmap; apply (in_map fst _ _ Hin')).
    destruct (Hb _ Hin) as [Hn _]. destruct (Hb _ Hin') as [Hn' _].
    cbn [snd] in Hn, Hn'.
    destruct (numero_pour_inj y y' n n'); try lia; try assumption. congruence.
Qed.

Lemma invoice_numbers_never_repeat_witness :
  exists (l : list NumeroFacture) (w' : World),
    appels_annees [2025; 2025; 2026; 2026] monde_2025 = (Ok l, w')
    /\ List.length l = List.length [2025; 2025; 2026; 2026]
    /\ NoDup (map numeroComplet l).
Proof.
  apply (invoice_numbers_never_repeat [2025; 2025; 2026; 2026] monde_2025).
  - repeat constructor; lia.
  - repeat constructor; lia.
  - cbn. split; [lia | repeat constructor; lia].
Defined.

(** The counter row keeps one year only: after a call made in another year,
    a call made in the year [y] starts again at 1, whatever had been issued
    for [y] before; when the first call was itself the first of [y], the
    same full number is issued twice. *)
Theorem year_change_forgets_history :
  forall (y y' : Z) (w : World),
    y <> y' ->
    exists (r1 r2 r3 : NumeroFacture) (w' : World),
      appels_annees [y; y'; y] w = (Ok [r1; r2; r3], w')
      /\ numeroSequentiel r3 = 1
      /\ (dernier_emis y w = 0 -> numeroComplet r3 = numeroComplet r1).
Proof.
  intros y y' w Hy.
  cbn [appels_annees]. unfold bind, ret.
  rewrite !getNextFactureNumber_run.
  eexists; eexists; eexists; eexists. split; [reflexivity|].
  assert (E : dernier_emis y
                (apres_emission y' (dernier_emis y' (apres_emission y (dernier_emis y w + 1) w) + 1)
                   (apres_emission y (dernier_emis y w + 1) w)) = 0).
  { unfold dernier_emis at 1. unfold apres_emission at 1.
    unfold set_sequence, record. cbn [sequence Prisma.annee].
    destruct (y' =? y) eqn:E; [|reflexivity].
    apply Z.eqb_eq in E. congruence. }
  rewrite E. split; [reflexivity|].
  intros ->. reflexivity.
Qed.

Lemma year_change_forgets_history_witness :
  exists (r1 r2 r3 : NumeroFacture) (w' : World),
    appels_annees [2026; 2027; 2026] monde_cabinet = (Ok [r1; r2; r3], w')
    /\ numeroSequentiel r3 = 1
    /\ (dernier_emis 2026 monde_cabinet = 0 -> numeroComplet r3 = numeroComplet r1).
Proof.
  apply (year_change_forgets_history 2026 2027 monde_cabinet). lia.
Defined.

(** ** Text around the object in the reply of the model *)

Lemma after_first_brace_app (pre r : string) :
  sans_car "{" pre = true ->
  after_first_brace (pre ++ String "{" r) = Some r.
Proof.
  induction pre as [|a pre IH]; cbn; [reflexivity|].
  intros H. apply andb_true_iff in H. destruct H as [Ha Hpre].
  apply negb_true_iff in Ha. rewrite Ha. now apply IH.
Qed.

Lemma upto_last_brace_sans (post : string) :
  sans_car "}" post = true -> upto_last_brace post = None.
Proof.
  induction post as [|a post IH]; cbn; [reflexivity|].
  intros H. apply andb_true_iff in H. destruct H as [Ha Hpost].
  apply negb_true_iff in Ha. rewrite (IH Hpost), Ha. reflexivity.
Qed.

Lemma upto_last_brace_app (mid post : string) :
  sans_car "}" post = true ->
  upto_last_brace (mid ++ String "}" post) = Some (mid ++ String "}" EmptyString)%string.
Proof.
  intros Hpost. induction mid as [|a mid IH]; cbn.
  - rewrite (upto_last_brace_sans post Hpost). reflexivity.
  - rewrite IH. reflexivity.
Qed.

Lemma jsonMatch_entoure (pre mid post : string) :
  sans_car "{" pre = true ->
  sans_car "}" post = true ->
  jsonMatch (pre ++ ("{" ++ mid ++ "}") ++ post) = Some ("{" ++ mid ++ "}")%string.
Proof.
  intros Hpre Hpost. unfold jsonMatch.
  cbn [append]. rewrite (after_first_brace_app pre _ Hpre).
  rewrite append_assoc. cbn [append].
  rewrite (upto_last_brace_app mid post Hpost). reflexivity.
Qed.

Lemma jsonMatch_objet (mid : string) :
  jsonMatch ("{" ++ mid ++ "}") = Some ("{" ++ mid ++ "}")%string.
Proof.
  unfold jsonMatch. cbn [append after_first_brace Ascii.eqb Bool.eqb].
  rewrite (upto_last_brace_app mid EmptyString eq_refl). reflexivity.
Qed.

(** Text before and after the object does not change what is extracted:
    when the reply of the model is an object in braces preceded by a text
    without opening brace and followed by a text without closing brace, the
    reference, the amount, the description, the success flag and the error
    are those obtained from the object alone, and a success keeps the whole
    reply as raw response. *)
Theorem extraction_ignores_surrounding_text :
  forall (env : Env) (transcription : JsVal) (w : World) (rest : list FetchOutcome)
         (pre mid post : string),
    sans_car "{" pre = true ->
    sans_car "}" post = true ->
    reponse_modele env transcription w rest (pre ++ ("{" ++ mid ++ "}") ++ post) ->
    exists (r : ExtractionResult) (w' : World),
      extraireInfosFacture env transcription w = (Ok r, w')
      /\ numDossier r = numDossier (selon_contenu ("{" ++ mid ++ "}"))
      /\ OpenRouter.montantHT r = OpenRouter.montantHT (selon_contenu ("{" ++ mid ++ "}"))
      /\ prestation r = prestation (selon_contenu ("{" ++ mid ++ "}"))
      /\ success r = success (selon_contenu ("{" ++ mid ++ "}"))
      /\ error r = error (selon_contenu ("{" ++ mid ++ "}"))
      /\ (success r = true ->
          rawResponse r = Some (pre ++ ("{" ++ mid ++ "}") ++ post)%string).
Proof.
  intros env transcription w rest pre mid post Hpre Hpost Hrep.
  rewrite (extraireInfosFacture_reply env transcription w rest _ Hrep).
  eexists; eexists. split; [reflexivity|].
  unfold selon_contenu.
  rewrite (jsonMatch_entoure pre mid post Hpre Hpost).
  rewrite (jsonMatch_objet mid).
  destruct (JSON_parse ("{" ++ mid ++ "}")) as [parsed|e]; [|repeat split; discriminate].
  unfold champs.
  destruct (prop parsed "numDossier") as [vd|e]; [|repeat split; discriminate].
  destruct (ToString (or_empty vd)) as [sd|e]; [|repeat split; discriminate].
  destruct (prop parsed "montantHT") as [vm|e]; [|repeat split; discriminate].
  destruct (ToNumber vm) as [n|e]; [|repeat split; discriminate].
  destruct (prop parsed "prestation") as [vp|e]; [|repeat split; discriminate].
  destruct (ToString (or_empty vp)) as [sp|e]; [|repeat split; discriminate].
  repeat split.
Qed.

Lemma extraction_ignores_surrounding_text_witness :
  exists (r : ExtractionResult) (w' : World),
    extraireInfosFacture env_demo dictee (monde_reponse "Voici: {} merci") = (Ok r, w')
    /\ numDossier r = numDossier (selon_contenu ("{" ++ "" ++ "}"))
    /\ OpenRouter.montantHT r = OpenRouter.montantHT (selon_contenu ("{" ++ "" ++ "}"))
    /\ prestation r = prestation (selon_contenu ("{" ++ "" ++ "}"))
    /\ success r = success (selon_contenu ("{" ++ "" ++ "}"))
    /\ error r = error (selon_contenu ("{" ++ "" ++ "}"))
    /\ (success r = true ->
        rawResponse r = Some ("Voici: " ++ ("{" ++ "" ++ "}") ++ " merci")%string).
Proof.
  apply (extraction_ignores_surrounding_text env_demo dictee
           (monde_reponse "Voici: {} merci") [] "Voici: " "" " merci").
  - reflexivity.
  - reflexivity.
  - split; [reflexivity|]. split; [eexists; reflexivity|].
    eexists; eexists. split; [reflexivity|]. split; [reflexivity|].
    split; vm_compute; reflexivity.
Defined.
